(** * The embedded task store (class [TaskDatabase]) over an abstract engine

    The class keeps its rows in an in-process SQLite engine (sql.js) and
    writes a full export of the engine into one [localStorage] key after
    every mutation.  This development embeds the class method by method and
    states the properties of the repository contract on that embedding.

    What is modelled concretely
    - the table [tasks] as the list of its rows in rowid order, together
      with the AUTOINCREMENT counter of the table;
    - the statements the class sends to the engine;
    - [Array.from] / [JSON.stringify] / [JSON.parse] / [new Uint8Array] on
      the arrays of bytes the class itself writes;
    - the control flow of every method, exceptions included, with a journal
      of the statements executed and of the writes to the durable key.

    What is taken from the host (record [Host]): the byte format of
    [db.export()], the behaviour of [JSON.parse] on text that is not an
    array of bytes in canonical form, the engine's resolution of a field
    name that is not literally a column of the schema, and the engine's
    conversion of a text value stored into the integer key column.

    Conventions: bound values are text (a JavaScript integer is represented
    by its decimal text, which is what a TEXT column stores for it); a
    rowid the engine assigns is below 2^63, and the rowid JavaScript reads
    back after an insert is the nearest double; field names of an update
    are SQL identifiers;
    [localStorage.setItem] always succeeds; ['now'] is an argument of the
    methods whose statement reads the clock. *)

From Stdlib Require Import String Ascii Strings.Byte List ZArith Bool Arith Lia.
From Stdlib Require Import Permutation Sorted DecimalString OrdersEx.
From Stdlib Require Import RelationClasses.
Import ListNotations.

Set Implicit Arguments.

Local Open Scope string_scope.
Local Open Scope Z_scope.

(** ** Data model *)

(** [interface Task]: one row of the table, all text except the key. *)
Record Task := mkTask {
  id : Z;
  title : string;
  description : string;
  status : string;
  priority : string;
  user_id : string;
  created_at : string;
  updated_at : string
}.

(** The columns of [CREATE TABLE tasks], in declaration order. *)
Inductive Column :=
| c_id | c_title | c_description | c_status | c_priority
| c_user_id | c_created_at | c_updated_at.

Definition column_name (c : Column) : string :=
  match c with
  | c_id => "id" | c_title => "title" | c_description => "description"
  | c_status => "status" | c_priority => "priority" | c_user_id => "user_id"
  | c_created_at => "created_at" | c_updated_at => "updated_at"
  end.

Definition columns : list Column :=
  [c_id; c_title; c_description; c_status; c_priority;
   c_user_id; c_created_at; c_updated_at].

(** A name that is literally a column of the schema. *)
Definition schema_column (name : string) : option Column :=
  find (fun c => String.eqb (column_name c) name) columns.

(** The table: rows in rowid order and the [sqlite_sequence] counter kept
    for [AUTOINCREMENT]. *)
Record Table := mkTable {
  rows : list Task;
  seq : Z
}.

Definition empty_table : Table := mkTable [] 0.

(** A database file either has the table or does not have it yet. *)
Definition Database := option Table.

(** What the host platform provides and the repository does not define. *)
Record Host := mkHost {
  (** [db.export()]: the bytes of the database file. *)
  sqlite_export : Database -> list byte;
  (** [new SQL.Database(bytes)] as seen by its first statement: [None] when
      the bytes are not a database file. *)
  sqlite_open : list byte -> option Database;
  (** [new Uint8Array(JSON.parse(text))] on text that is not a canonical
      array of bytes: [None] when it throws. *)
  json_parse_other : string -> option (list byte);
  (** Resolution of a field name that is not literally a schema column
      (the engine ignores letter case, for one). *)
  column_alias : string -> option Column;
  (** INTEGER conversion of a text stored into the key column: [None] is
      the engine's "datatype mismatch". *)
  integer_of_text : string -> option Z
}.

(** An integer of the engine as the JavaScript number the binding hands
    over: exact up to 2^53 in absolute value, beyond that the nearest
    number of 53 significant bits, a tie going to the even one. *)
Definition js_number (z : Z) : Z :=
  let a := Z.abs z in
  if a <=? 2 ^ 53 then z
  else
    let e := Z.log2 a - 52 in
    let q := Z.shiftr a e in
    let r := a - Z.shiftl q e in
    let h := Z.shiftl 1 (e - 1) in
    let q' := if (h <? r) || ((r =? h) && Z.odd q) then q + 1 else q in
    Z.sgn z * Z.shiftl q' e.

(** ** The engine statements *)

Module Sql.

Inductive Error :=
| NotADatabase
| NoSuchTable
| NoSuchColumn (name : string)
| DatatypeMismatch
| UniqueConstraint
| Full.

(** The largest rowid of the engine, 2^63 - 1. *)
Definition max_rowid : Z := 9223372036854775807.

Definition has_id (i : Z) (r : Task) : bool := id r =? i.

(** Largest rowid present, if any. *)
Definition largest_rowid (l : list Task) : option Z :=
  fold_right (fun r m => Some (match m with
                               | None => id r
                               | Some x => Z.max (id r) x
                               end)) None l.

(** The rowid an [AUTOINCREMENT] insert picks: one more than the largest
    rowid present (1 in an empty table), and more than the counter.  When
    the largest rowid present or the counter has reached the largest rowid
    of the engine the insert fails, "database or disk is full". *)
Definition next_rowid (t : Table) : Error + Z :=
  let largest := largest_rowid (rows t) in
  if match largest with Some m => max_rowid <=? m | None => false end
     || (max_rowid <=? seq t)
  then inl Full
  else inr (Z.max (match largest with None => 1 | Some m => m + 1 end)
                  (seq t + 1)).

(** [INSERT INTO tasks (title, description, priority, user_id, created_at,
    updated_at) VALUES (?, ?, ?, ?, datetime('now'), datetime('now'))]:
    [status] takes its default, both timestamps read the same clock value.
    Returns the table and [last_insert_rowid()]. *)
Definition insert (t : Table) (ti de pr us now : string)
  : Error + (Table * Z) :=
  match next_rowid t with
  | inl e => inl e
  | inr i =>
      inr (mkTable (rows t ++ [mkTask i ti de "pending" pr us now now]) i, i)
  end.

(** [SELECT * FROM tasks WHERE id = ?] *)
Definition select_by_id (t : Table) (i : Z) : list Task :=
  filter (has_id i) (rows t).

(** [ORDER BY created_at DESC]: text comparison, byte by byte; the sorter
    keeps rows with equal keys in the order the scan produced them. *)
Fixpoint place (r : Task) (l : list Task) : list Task :=
  match l with
  | [] => [r]
  | x :: l' =>
      if String.ltb (created_at r) (created_at x)
      then x :: place r l'
      else r :: l
  end.

Definition order_by_created_at_desc (l : list Task) : list Task :=
  fold_right place [] l.

(** [SELECT * FROM tasks WHERE user_id = ? ORDER BY created_at DESC] *)
Definition select_by_user (t : Table) (u : string) : list Task :=
  order_by_created_at_desc
    (filter (fun r => String.eqb (user_id r) u) (rows t)).

(** [... WHERE status = ? AND user_id = ? ORDER BY created_at DESC] *)
Definition select_by_status (t : Table) (s u : string) : list Task :=
  order_by_created_at_desc
    (filter (fun r => String.eqb (status r) s && String.eqb (user_id r) u)
            (rows t)).

(** [... WHERE priority = ? AND user_id = ? ORDER BY created_at DESC] *)
Definition select_by_priority (t : Table) (p u : string) : list Task :=
  order_by_created_at_desc
    (filter (fun r => String.eqb (priority r) p && String.eqb (user_id r) u)
            (rows t)).

(** [DELETE FROM tasks WHERE id = ?]: the counter is kept. *)
Definition delete (t : Table) (i : Z) : Table :=
  mkTable (filter (fun r => negb (has_id i r)) (rows t)) (seq t).

Section Update.

Variable host : Host.

(** Name resolution when the statement is prepared. *)
Definition resolve (name : string) : option Column :=
  match schema_column name with
  | Some c => Some c
  | None => column_alias host name
  end.

Fixpoint resolve_all (fields : list (string * string))
  : Error + list (Column * string) :=
  match fields with
  | [] => inr []
  | (name, v) :: rest =>
      match resolve name with
      | None => inl (NoSuchColumn name)
      | Some c =>
          match resolve_all rest with
          | inl e => inl e
          | inr l => inr ((c, v) :: l)
          end
      end
  end.

(** One assignment [col = ?]. *)
Definition assign (r : Task) (c : Column) (v : string) : option Task :=
  match c with
  | c_id =>
      match integer_of_text host v with
      | Some i => Some (mkTask i (title r) (description r) (status r)
                          (priority r) (user_id r) (created_at r)
                          (updated_at r))
      | None => None
      end
  | c_title => Some (mkTask (id r) v (description r) (status r) (priority r)
                       (user_id r) (created_at r) (updated_at r))
  | c_description => Some (mkTask (id r) (title r) v (status r) (priority r)
                             (user_id r) (created_at r) (updated_at r))
  | c_status => Some (mkTask (id r) (title r) (description r) v (priority r)
                        (user_id r) (created_at r) (updated_at r))
  | c_priority => Some (mkTask (id r) (title r) (description r) (status r) v
                          (user_id r) (created_at r) (updated_at r))
  | c_user_id => Some (mkTask (id r) (title r) (description r) (status r)
                         (priority r) v (created_at r) (updated_at r))
  | c_created_at => Some (mkTask (id r) (title r) (description r) (status r)
                            (priority r) (user_id r) v (updated_at r))
  | c_updated_at => Some (mkTask (id r) (title r) (description r) (status r)
                            (priority r) (user_id r) (created_at r) v)
  end.

(** The SET list, left to right: of two assignments to one column the
    rightmost is the one that counts. *)
Fixpoint assign_all (r : Task) (l : list (Column * string)) : option Task :=
  match l with
  | [] => Some r
  | (c, v) :: rest =>
      match assign r c v with
      | Some r' => assign_all r' rest
      | None => None
      end
  end.

(** Put a row at its place in rowid order. *)
Fixpoint insert_by_rowid (r : Task) (l : list Task) : list Task :=
  match l with
  | [] => [r]
  | x :: l' => if id r <? id x then r :: l else x :: insert_by_rowid r l'
  end.

Fixpoint replace_row (i : Z) (r' : Task) (l : list Task) : list Task :=
  match l with
  | [] => []
  | x :: l' => if has_id i x then r' :: l' else x :: replace_row i r' l'
  end.

Fixpoint remove_row (i : Z) (l : list Task) : list Task :=
  match l with
  | [] => []
  | x :: l' => if has_id i x then l' else x :: remove_row i l'
  end.

(** [UPDATE tasks SET f1 = ?, ..., fn = ?, updated_at = datetime('now')
    WHERE id = ?].  A field name that is no column fails the preparation;
    with no row of that id nothing is changed; a failing row leaves the
    table as it was. *)
Definition update (t : Table) (fields : list (string * string))
    (now : string) (i : Z) : Error + Table :=
  match resolve_all fields with
  | inl e => inl e
  | inr sets =>
      match find (has_id i) (rows t) with
      | None => inr t
      | Some r =>
          match assign_all r (sets ++ [(c_updated_at, now)]) with
          | None => inl DatatypeMismatch
          | Some r' =>
              if id r' =? id r
              then inr (mkTable (replace_row i r' (rows t)) (seq t))
              else if existsb (has_id (id r')) (rows t)
              then inl UniqueConstraint
              else inr (mkTable (insert_by_rowid r' (remove_row i (rows t)))
                                (seq t))
          end
      end
  end.

End Update.

End Sql.

(** ** The snapshot text: [JSON.stringify(Array.from(bytes))] and back *)

Module Json.

Local Open Scope nat_scope.

Definition digit (n : nat) : ascii := ascii_of_nat (48 + n).

(** A number below 256 as JavaScript prints it: no sign, no leading zero. *)
Definition decimal (n : nat) : string :=
  if n <? 10 then String (digit n) ""
  else if n <? 100 then String (digit (n / 10)) (String (digit (n mod 10)) "")
  else String (digit (n / 100))
         (String (digit ((n / 10) mod 10)) (String (digit (n mod 10)) "")).

Fixpoint elements (l : list byte) : string :=
  match l with
  | [] => ""
  | [b] => decimal (Byte.to_nat b)
  | b :: l' => decimal (Byte.to_nat b) ++ "," ++ elements l'
  end.

(** [JSON.stringify] of an array of bytes: ["[1,2,3]"], no blanks. *)
Definition stringify (l : list byte) : string := "[" ++ elements l ++ "]".

Definition digit_value (c : ascii) : option nat :=
  let n := nat_of_ascii c in
  if (48 <=? n) && (n <=? 57) then Some (n - 48) else None.

Fixpoint digits_value (acc : nat) (s : string) : option nat :=
  match s with
  | EmptyString => Some acc
  | String c s' =>
      match digit_value c with
      | Some d => digits_value (10 * acc + d) s'
      | None => None
      end
  end.

(** One array element in canonical form, at most 255. *)
Definition byte_of_token (tok : string) : option byte :=
  match tok with
  | EmptyString => None
  | String "0" (String _ _) => None
  | _ =>
      match digits_value 0 tok with
      | Some n => Byte.of_nat n
      | None => None
      end
  end.

Fixpoint parse_elements (tok s : string) : option (list byte) :=
  match s with
  | EmptyString => None
  | String c s' =>
      if Ascii.eqb c ","
      then match byte_of_token tok, parse_elements "" s' with
           | Some b, Some l => Some (b :: l)
           | _, _ => None
           end
      else if Ascii.eqb c "]"
      then match s' with
           | EmptyString => option_map (fun b => [b]) (byte_of_token tok)
           | _ => None
           end
      else parse_elements (tok ++ String c "") s'
  end.

(** Characters that end no token. *)
Definition inside (c : ascii) : bool :=
  negb (Ascii.eqb c ",") && negb (Ascii.eqb c "]").

Fixpoint all_inside (s : string) : bool :=
  match s with
  | EmptyString => true
  | String c s' => inside c && all_inside s'
  end.

(** The texts [stringify] produces, read back; any other text is left to
    the host's parser. *)
Definition parse_byte_array (s : string) : option (list byte) :=
  match s with
  | String "[" s' =>
      if String.eqb s' "]" then Some [] else parse_elements "" s'
  | _ => None
  end.

End Json.

(** [new Uint8Array(JSON.parse(savedDb))]; [None] when it throws. *)
Definition snapshot_bytes (host : Host) (savedDb : string)
  : option (list byte) :=
  match Json.parse_byte_array savedDb with
  | Some l => Some l
  | None => json_parse_other host savedDb
  end.

(** ** The world of one [TaskDatabase] instance *)

(** [this.db]: a handle on bytes that are no database file fails at its
    first statement. *)
Inductive Connection :=
| Broken
| Live (d : Database).

Inductive Statement :=
| CreateTable
| Insert
| SelectLastInsertRowid
| SelectById
| SelectByUser
| SelectByStatus
| SelectByPriority
| Update (fields : list string)
| Delete.

(** The journal: statements the engine completed and writes to the key. *)
Inductive Event :=
| Executed (s : Statement)
| SetItem (value : string).

Record World := mkWorld {
  db : option Connection;           (* this.db, null at first *)
  initialized : bool;               (* this.initialized *)
  localStorage : option string;     (* the value under 'taskDatabase' *)
  journal : list Event
}.

Inductive Exception :=
| SyntaxError                       (* JSON.parse *)
| TypeError                         (* a method of null *)
| SqlError (e : Sql.Error).

(** A call either returns or throws; what it did before throwing stays. *)
Inductive Outcome (A : Type) :=
| Ok (a : A) (w : World)
| Throw (e : Exception) (w : World).

Arguments Throw {A} e w.

Definition M (A : Type) := World -> Outcome A.

Definition ret {A} (a : A) : M A := fun w => Ok a w.

Definition bind {A B} (m : M A) (k : A -> M B) : M B :=
  fun w => match m w with
           | Ok a w' => k a w'
           | Throw e w' => Throw e w'
           end.

Definition throw {A} (e : Exception) : M A := fun w => Throw e w.

Notation "x <- m ;; k" := (bind m (fun x => k))
  (at level 61, m at next level, right associativity).
Notation "m ;; k" := (bind m (fun _ => k))
  (at level 61, right associativity).

Definition world_of {A} (o : Outcome A) : World :=
  match o with Ok _ w => w | Throw _ w => w end.

(** An instance after a successful [initialize]. *)
Definition ready (t : Table) (slot : option string) (j : list Event) : World :=
  mkWorld (Some (Live (Some t))) true slot j.

(** A new instance of the class in a process that finds [slot]. *)
Definition fresh (slot : option string) (j : list Event) : World :=
  mkWorld None false slot j.

(** The table behind [this.db], when there is one. *)
Definition table_of (w : World) : option Table :=
  match db w with
  | Some (Live (Some t)) => Some t
  | _ => None
  end.

(** ** The methods of [TaskDatabase] *)

Section Repository.

Variable host : Host.

Definition executed (s : Statement) : M unit :=
  fun w => Ok tt (mkWorld (db w) (initialized w) (localStorage w)
                          (journal w ++ [Executed s])).

Definition setItem (v : string) : M unit :=
  fun w => Ok tt (mkWorld (db w) (initialized w) (Some v)
                          (journal w ++ [SetItem v])).

Definition set_db (c : Connection) : M unit :=
  fun w => Ok tt (mkWorld (Some c) (initialized w) (localStorage w)
                          (journal w)).

Definition set_initialized : M unit :=
  fun w => Ok tt (mkWorld (db w) true (localStorage w) (journal w)).

(** The database behind [this.db], for a statement or an export. *)
Definition connection : M Database :=
  fun w => match db w with
           | None => Throw TypeError w
           | Some Broken => Throw (SqlError Sql.NotADatabase) w
           | Some (Live d) => Ok d w
           end.

(** The table a statement on [tasks] works on. *)
Definition tasks : M Table :=
  d <- connection ;;
  match d with
  | None => throw (SqlError Sql.NoSuchTable)
  | Some t => ret t
  end.

(** The text a save writes for a database: export, [Array.from],
    [JSON.stringify]. *)
Definition snapshot (d : Database) : string :=
  Json.stringify (sqlite_export host d).

(** [saveToLocalStorage]: the snapshot goes under the one key. *)
Definition saveToLocalStorage : M unit :=
  d <- connection ;;
  setItem (snapshot d).

(** [initializeDatabase]: [CREATE TABLE IF NOT EXISTS tasks], then save. *)
Definition initializeDatabase : M unit :=
  d <- connection ;;
  set_db (Live (Some (match d with Some t => t | None => empty_table end))) ;;
  executed CreateTable ;;
  saveToLocalStorage.

(** [if (savedDb)]: a missing key and the empty text both count as no
    snapshot. *)
Definition truthy (v : option string) : bool :=
  match v with
  | None => false
  | Some s => negb (String.eqb s "")
  end.

(** [initialize] *)
Definition initialize : M unit :=
  fun w =>
    if initialized w then Ok tt w
    else
      let savedDb := localStorage w in
      ((if truthy savedDb
        then match snapshot_bytes host (match savedDb with
                                       | Some s => s
                                       | None => ""
                                       end) with
            | None => throw SyntaxError
            | Some uint8Array =>
                set_db (match sqlite_open host uint8Array with
                        | Some d => Live d
                        | None => Broken
                        end)
            end
        else set_db (Live None)) ;;
       initializeDatabase ;;
       set_initialized) w.

(** [getTaskById]: the first row of the result, or [undefined]. *)
Definition getTaskById (i : Z) : M (option Task) :=
  initialize ;;
  t <- tasks ;;
  executed SelectById ;;
  ret (hd_error (Sql.select_by_id t i)).

(** [createTask]; [priority] is [None] when the argument is left out.  The
    [!] on the result has no effect when the program runs. *)
Definition createTask (title description : string) (priority : option string)
    (userId : string) (now : string) : M (option Task) :=
  let priority := match priority with Some p => p | None => "medium" end in
  initialize ;;
  t <- tasks ;;
  match Sql.insert t title description priority userId now with
  | inl e => throw (SqlError e)
  | inr (t', lastId) =>
      set_db (Live (Some t')) ;;
      executed Insert ;;
      executed SelectLastInsertRowid ;;
      saveToLocalStorage ;;
      getTaskById (js_number lastId)
  end.

(** [getAllTasks] *)
Definition getAllTasks (userId : string) : M (list Task) :=
  initialize ;;
  t <- tasks ;;
  executed SelectByUser ;;
  ret (Sql.select_by_user t userId).

(** [updateTask]; [updates] lists the own properties of the object in
    their order, [Object.keys] and [Object.values] side by side. *)
Definition updateTask (i : Z) (updates : list (string * string))
    (now : string) : M (option Task) :=
  initialize ;;
  let fields := map fst updates in
  match fields with
  | [] => getTaskById i
  | _ =>
      t <- tasks ;;
      match Sql.update host t updates now i with
      | inl e => throw (SqlError e)
      | inr t' =>
          set_db (Live (Some t')) ;;
          executed (Update fields) ;;
          saveToLocalStorage ;;
          getTaskById i
      end
  end.

(** [deleteTask] *)
Definition deleteTask (i : Z) : M bool :=
  initialize ;;
  t <- tasks ;;
  set_db (Live (Some (Sql.delete t i))) ;;
  executed Delete ;;
  saveToLocalStorage ;;
  ret true.

(** [getTasksByStatus] *)
Definition getTasksByStatus (status userId : string) : M (list Task) :=
  initialize ;;
  t <- tasks ;;
  executed SelectByStatus ;;
  ret (Sql.select_by_status t status userId).

(** [getTasksByPriority] *)
Definition getTasksByPriority (priority userId : string) : M (list Task) :=
  initialize ;;
  t <- tasks ;;
  executed SelectByPriority ;;
  ret (Sql.select_by_priority t priority userId).

(** *** Sequences of mutating calls *)

Inductive Mutation :=
| Create (title description : string) (priority : option string)
         (userId now : string)
| Change (i : Z) (updates : list (string * string)) (now : string)
| Remove (i : Z).

(** One call; a call that throws leaves the world it had reached. *)
Definition mutate (m : Mutation) (w : World) : World :=
  match m with
  | Create ti de pr us now => world_of (createTask ti de pr us now w)
  | Change i u now => world_of (updateTask i u now w)
  | Remove i => world_of (deleteTask i w)
  end.

Definition mutations (l : list Mutation) (w : World) : World :=
  fold_left (fun w m => mutate m w) l w.

(** The durable key holds the snapshot of the table now in memory. *)
Definition snapshot_current (w : World) : Prop :=
  exists t, table_of w = Some t /\ localStorage w = Some (snapshot (Some t)).

(** What a call returned, if it returned. *)
Definition returned {A} (o : Outcome A) : option A :=
  match o with Ok a _ => Some a | Throw _ _ => None end.

(** The call sends a mutating statement: an update does when it names a
    field. *)
Definition mutates (m : Mutation) : bool :=
  match m with
  | Change _ [] _ => false
  | _ => true
  end.

(** The call [m] made in [w] returned, leaving [w']. *)
Definition completes (m : Mutation) (w w' : World) : Prop :=
  match m with
  | Create ti de pr us now => exists r, createTask ti de pr us now w = Ok r w'
  | Change i u now => exists r, updateTask i u now w = Ok r w'
  | Remove i => exists r, deleteTask i w = Ok r w'
  end.

Definition is_write (e : Event) : bool :=
  match e with
  | SetItem _ => true
  | Executed _ => false
  end.

(** Between [w] and [w'] the table now in memory was written under the
    key: the text is the JSON array of the bytes the engine exports for
    that table, the last write of the call put it there, it is what the key
    holds, and read back it gives those bytes. *)
Definition snapshot_written (w w' : World) : Prop :=
  exists t before after,
    let text := Json.stringify (sqlite_export host (Some t)) in
    table_of w' = Some t
    /\ localStorage w' = Some text
    /\ journal w' = (journal w ++ before ++ SetItem text :: after)%list
    /\ existsb is_write after = false
    /\ snapshot_bytes host text = Some (sqlite_export host (Some t)).

(** Between [w] and [w'] nothing was written under the key and the table
    in memory was not changed. *)
Definition nothing_written (w w' : World) : Prop :=
  exists events,
    journal w' = (journal w ++ events)%list
    /\ existsb is_write events = false
    /\ table_of w' = table_of w
    /\ localStorage w' = localStorage w.

(** The snapshot cannot be loaded: the text does not parse, or its bytes
    are no database. *)
Definition unloadable (s : string) : Prop :=
  snapshot_bytes host s = None
  \/ exists l, snapshot_bytes host s = Some l /\ sqlite_open host l = None.

End Repository.

(** ** The server routes that guard the same table

    The REST routes of the server keep the same table behind the same
    contract; their guards are the ones the embedded store is compared
    with.  The bodies are taken with text values, the values the client of
    this repository sends for these fields. *)

Module Server.

Definition priorities : list string := ["low"; "medium"; "high"].
Definition statuses : list string := ["pending"; "in_progress"; "completed"].
Definition allowedFields : list string :=
  ["title"; "description"; "status"; "priority"].

Definition includes (l : list string) (s : string) : bool :=
  existsb (String.eqb s) l.

(** [updates.status], [updates.priority]: the property of that name. *)
Definition property (name : string) (updates : list (string * string))
  : option string :=
  option_map snd (find (fun kv => String.eqb (fst kv) name) updates).

(** [POST /api/tasks] reaches its INSERT only past these two tests. *)
Definition post_accepts (title description : string)
    (priority : option string) : bool :=
  let priority := match priority with Some p => p | None => "medium" end in
  negb (String.eqb title "" || String.eqb description "")
  && includes priorities priority.

(** [updates.status && !statuses.includes(updates.status)] *)
Definition invalid (allowed : list string) (v : option string) : bool :=
  match v with
  | Some s => negb (String.eqb s "") && negb (includes allowed s)
  | None => false
  end.

(** The fields [PUT /api/tasks/:id] keeps for its SET list. *)
Definition put_fields (updates : list (string * string))
  : list (string * string) :=
  filter (fun kv => includes allowedFields (fst kv)) updates.

(** [PUT /api/tasks/:id] reaches its UPDATE only past these tests. *)
Definition put_accepts (updates : list (string * string)) : bool :=
  negb (Nat.eqb (List.length updates) 0)
  && negb (invalid statuses (property "status" updates))
  && negb (invalid priorities (property "priority" updates))
  && negb (Nat.eqb (List.length (put_fields updates)) 0).

End Server.

(** ** A small host to run the methods on

    The export format is a frame per value: one length byte, then the
    bytes of the text; integers travel as decimal text.  A file of no bytes
    is a database without the table. *)

Module Demo.

Definition text_of_int (z : Z) : string := NilZero.string_of_int (Z.to_int z).

Definition int_of_text (s : string) : option Z :=
  option_map Z.of_int (NilZero.int_of_string s).

Definition frame (s : string) : list byte :=
  match Byte.of_nat (String.length s) with
  | Some n => n :: list_byte_of_string s
  | None => []
  end.

Definition frame_row (r : Task) : list byte :=
  frame (text_of_int (id r)) ++ frame (title r) ++ frame (description r)
  ++ frame (status r) ++ frame (priority r) ++ frame (user_id r)
  ++ frame (created_at r) ++ frame (updated_at r).

Definition export (d : Database) : list byte :=
  match d with
  | None => []
  | Some t => x01 :: frame (text_of_int (seq t)) ++ flat_map frame_row (rows t)
  end.

Fixpoint frames (need : nat) (cur : list byte) (l : list byte)
  : option (list string) :=
  match l with
  | [] => match need with O => Some [] | S _ => None end
  | b :: l' =>
      match need with
      | O =>
          match Byte.to_nat b with
          | O => option_map (cons "") (frames 0 [] l')
          | n => frames n [] l'
          end
      | S O =>
          option_map (cons (string_of_list_byte (rev (b :: cur))))
                     (frames 0 [] l')
      | S k => frames k (b :: cur) l'
      end
  end.

Fixpoint rows_of (l : list string) : option (list Task) :=
  match l with
  | [] => Some []
  | i :: ti :: de :: st :: pr :: us :: cr :: up :: rest =>
      match int_of_text i, rows_of rest with
      | Some i, Some rs => Some (mkTask i ti de st pr us cr up :: rs)
      | _, _ => None
      end
  | _ => None
  end.

Definition open (l : list byte) : option Database :=
  match l with
  | [] => Some None
  | x01 :: l' =>
      match frames 0 [] l' with
      | Some (s :: fields) =>
          match int_of_text s, rows_of fields with
          | Some n, Some rs => Some (Some (mkTable rs n))
          | _, _ => None
          end
      | _ => None
      end
  | _ => None
  end.

(** JSON values that are no array and give the typed array no element. *)
Definition parse_other (s : string) : option (list byte) :=
  if existsb (String.eqb s) ["null"; "{}"; "0"] then Some [] else None.

Definition host : Host :=
  mkHost export open parse_other (fun _ => None) int_of_text.

(** Sample rows and tables. *)
Definition last_id : Task :=
  mkTask Sql.max_rowid "Last" "no id above this one" "pending" "low" "u1"
         "2024-05-01 10:00:00" "2024-05-01 10:00:00".

Definition full_table : Table := mkTable [last_id] Sql.max_rowid.

Definition milk : Task :=
  mkTask 1 "Buy milk" "2% milk" "pending" "low" "u1"
         "2024-05-01 10:00:00" "2024-05-01 10:00:00".

Definition bread : Task :=
  mkTask 2 "Buy bread" "rye" "pending" "medium" "u1"
         "2024-05-01 10:00:00" "2024-05-01 10:00:00".

Definition report : Task :=
  mkTask 3 "Write report" "Q2 numbers" "in_progress" "high" "u2"
         "2024-05-02 09:30:00" "2024-05-02 09:30:00".

Definition one_task : Table := mkTable [milk] 1.

Definition three_tasks : Table := mkTable [milk; bread; report] 3.

End Demo.


(** ** Vocabulary of the statements *)

(** Rows in strictly ascending rowid order, the order of a table scan. *)
Fixpoint ascending (l : list Task) : bool :=
  match l with
  | [] => true
  | x :: l' => forallb (fun y => id x <? id y) l' && ascending l'
  end.

(** [a] may stand before [b] in a listing: created later, or created at
    the same instant with the lower id. *)
Definition before (a b : Task) : Prop :=
  String.ltb (created_at b) (created_at a) = true
  \/ (created_at a = created_at b /\ id a < id b).

(** The order the contract asks for: on equal instants the higher id
    first. *)
Definition before_higher_id_first (a b : Task) : Prop :=
  String.ltb (created_at b) (created_at a) = true
  \/ (created_at a = created_at b /\ id b < id a).

(** A JavaScript number holds the integer exactly. *)
Definition safe_integer (z : Z) : bool := Z.abs z <=? 2 ^ 53.

(** The table has room for a row: the engine has a rowid left for an
    insert, and JavaScript holds that rowid exactly. *)
Definition has_room (t : Table) : bool :=
  match Sql.next_rowid t with
  | inr i => safe_integer i
  | inl _ => false
  end.

(** The text a row holds in a column; the key is not text. *)
Definition column_text (c : Column) (r : Task) : option string :=
  match c with
  | c_id => None
  | c_title => Some (title r)
  | c_description => Some (description r)
  | c_status => Some (status r)
  | c_priority => Some (priority r)
  | c_user_id => Some (user_id r)
  | c_created_at => Some (created_at r)
  | c_updated_at => Some (updated_at r)
  end.

(** The columns the type of [updates] names. *)
Definition settable : list Column :=
  [c_title; c_description; c_status; c_priority].

Definition settable_name (f : string) : bool :=
  existsb (fun c => String.eqb (column_name c) f) settable.

(** No name twice, as the keys of an object are. *)
Fixpoint distinct (l : list string) : bool :=
  match l with
  | [] => true
  | x :: l' => negb (existsb (String.eqb x) l') && distinct l'
  end.

(** The engine finds a column for the name. *)
Definition resolves (host : Host) (f : string) : bool :=
  match Sql.resolve host f with
  | Some _ => true
  | None => false
  end.

(** [a] was not created before [b]. *)
Definition not_earlier (a b : Task) : Prop :=
  String.ltb (created_at a) (created_at b) = false.

(** * Properties *)

(** ** Reading back the snapshot text *)

Module JsonFacts.

Import Json.

Local Open Scope nat_scope.

Lemma append_assoc (a b c : string) : ((a ++ b) ++ c = a ++ (b ++ c))%string.
Proof. induction a as [|x a IH]; simpl; [reflexivity | now rewrite IH]. Qed.

Lemma append_nil_r (a : string) : (a ++ "" = a)%string.
Proof. induction a as [|x a IH]; simpl; [reflexivity | now rewrite IH]. Qed.

Lemma parse_elements_token (d : string) :
  all_inside d = true ->
  forall tok s,
    parse_elements tok (d ++ s) = parse_elements (tok ++ d) s.
Proof.
  induction d as [|c d IH]; intros Hd tok s; simpl.
  - now rewrite append_nil_r.
  - simpl in Hd. apply andb_prop in Hd as [Hc Hd].
    unfold inside in Hc. apply andb_prop in Hc as [Hc1 Hc2].
    apply negb_true_iff in Hc1, Hc2. rewrite Hc1, Hc2.
    rewrite (IH Hd). f_equal. rewrite append_assoc. reflexivity.
Qed.

Lemma decimal_inside (b : byte) : all_inside (decimal (Byte.to_nat b)) = true.
Proof. destruct b; reflexivity. Qed.

Lemma byte_of_token_decimal (b : byte) :
  byte_of_token (decimal (Byte.to_nat b)) = Some b.
Proof. destruct b; reflexivity. Qed.

Lemma decimal_not_bracket (b : byte) (s : string) :
  String.eqb (decimal (Byte.to_nat b) ++ s) "]" = false.
Proof. destruct b; reflexivity. Qed.

Lemma parse_elements_elements (l : list byte) (b : byte) :
  parse_elements "" (elements (b :: l) ++ "]") = Some (b :: l).
Proof.
  revert b. induction l as [|b' l IH]; intro b.
  - cbn [elements].
    rewrite (parse_elements_token _ (decimal_inside b)).
    cbn [append parse_elements]. simpl Ascii.eqb. cbn iota.
    rewrite byte_of_token_decimal. reflexivity.
  - change (elements (b :: b' :: l))
      with (decimal (Byte.to_nat b) ++ "," ++ elements (b' :: l))%string.
    rewrite append_assoc.
    rewrite (parse_elements_token _ (decimal_inside b)).
    change (("," ++ elements (b' :: l)) ++ "]")%string
      with (String "," (elements (b' :: l) ++ "]")).
    cbn [append parse_elements]. simpl Ascii.eqb. cbn iota.
    rewrite byte_of_token_decimal, IH. reflexivity.
Qed.

(** [JSON.parse] then [new Uint8Array] undoes [Array.from] then
    [JSON.stringify], on every array of bytes. *)
Lemma parse_stringify (l : list byte) :
  parse_byte_array (stringify l) = Some l.
Proof.
  destruct l as [|b l]; [reflexivity|].
  unfold stringify, parse_byte_array.
  change ("[" ++ elements (b :: l) ++ "]")%string
    with (String "[" (elements (b :: l) ++ "]")).
  cbv iota beta.
  replace (String.eqb (elements (b :: l) ++ "]") "]") with false.
  - apply parse_elements_elements.
  - symmetry. destruct l as [|b' l].
    + apply decimal_not_bracket.
    + change (elements (b :: b' :: l))
        with (decimal (Byte.to_nat b) ++ "," ++ elements (b' :: l))%string.
      rewrite append_assoc. apply decimal_not_bracket.
Qed.

Lemma stringify_not_empty (l : list byte) :
  String.eqb (stringify l) "" = false.
Proof. reflexivity. Qed.

End JsonFacts.

(** ** The engine statements *)

Module SqlFacts.

Import Sql.

Lemma largest_rowid_bound (l : list Task) (r : Task) :
  In r l -> exists m, largest_rowid l = Some m /\ id r <= m.
Proof.
  induction l as [|x l IH]; intros Hin; [contradiction|].
  simpl. destruct Hin as [->|Hin].
  - destruct (largest_rowid l); eexists; split; try reflexivity; lia.
  - destruct (IH Hin) as [m [-> Hm]]. eexists; split; [reflexivity|lia].
Qed.

(** The rowid of an insert is above every rowid present. *)
Lemma next_rowid_above (t : Table) (i : Z) (r : Task) :
  next_rowid t = inr i -> In r (rows t) -> id r < i.
Proof.
  intros Hn Hin. destruct (largest_rowid_bound _ _ Hin) as [m [Hm Hle]].
  unfold next_rowid in Hn. rewrite Hm in Hn.
  destruct (_ || _); [discriminate|]. injection Hn as <-. lia.
Qed.

Lemma next_rowid_above_seq (t : Table) (i : Z) :
  next_rowid t = inr i -> seq t < i.
Proof.
  unfold next_rowid. destruct (_ || _); [discriminate|].
  intros H. injection H as <-. lia.
Qed.

(** An insert that succeeds has picked its rowid and put the row last. *)
Lemma insert_inv (t t' : Table) (ti de pr us now : string) (i : Z) :
  insert t ti de pr us now = inr (t', i) ->
  next_rowid t = inr i
  /\ t' = mkTable (rows t ++ [mkTask i ti de "pending" pr us now now]) i.
Proof.
  unfold insert. destruct (next_rowid t) as [e|k]; [discriminate|].
  intros H. injection H as <- <-. split; reflexivity.
Qed.

Lemma insert_ok (t : Table) (ti de pr us now : string) (i : Z) :
  next_rowid t = inr i ->
  insert t ti de pr us now
  = inr (mkTable (rows t ++ [mkTask i ti de "pending" pr us now now]) i, i).
Proof. intros H. unfold insert. now rewrite H. Qed.

(** A rowid a JavaScript number holds exactly comes back as it is. *)
Lemma js_number_safe (z : Z) : safe_integer z = true -> js_number z = z.
Proof. unfold safe_integer, js_number. now intros ->. Qed.

Lemma filter_none {A} (f : A -> bool) (l : list A) :
  (forall x, In x l -> f x = false) -> filter f l = [].
Proof.
  induction l as [|x l IH]; intros H; [reflexivity|]. simpl.
  rewrite (H x (or_introl eq_refl)). apply IH. intros y Hy.
  apply H. now right.
Qed.

(** Reading back the row just inserted finds that row and no other. *)
Lemma select_by_id_insert (t : Table) (ti de pr us now : string) (i : Z) :
  next_rowid t = inr i ->
  select_by_id
    (mkTable (rows t ++ [mkTask i ti de "pending" pr us now now]) i) i
  = [mkTask i ti de "pending" pr us now now].
Proof.
  intros Hn. unfold select_by_id. cbn [rows].
  rewrite filter_app. rewrite filter_none.
  - simpl. unfold has_id. cbn [id]. now rewrite Z.eqb_refl.
  - intros x Hx. unfold has_id. apply Z.eqb_neq.
    pose proof (@next_rowid_above t i x Hn Hx). lia.
Qed.

(** Deleting twice is deleting once. *)
Lemma delete_idem (t : Table) (i : Z) : delete (delete t i) i = delete t i.
Proof.
  unfold delete. cbn [rows seq]. f_equal.
  induction (rows t) as [|x l IH]; [reflexivity|]. simpl.
  destruct (negb (has_id i x)) eqn:E; simpl; [rewrite E; f_equal|]; exact IH.
Qed.

(** Deleting an id that no row has changes nothing. *)
Lemma delete_absent (t : Table) (i : Z) :
  (forall r, In r (rows t) -> id r <> i) -> delete t i = t.
Proof.
  intros H. destruct t as [l s]. unfold delete. cbn [rows seq] in *. f_equal.
  induction l as [|x l IH]; [reflexivity|]. simpl.
  assert (Hx : has_id i x = false).
  { unfold has_id. apply Z.eqb_neq. apply H. now left. }
  rewrite Hx. simpl. f_equal. apply IH. intros r Hr. apply H. now right.
Qed.

Lemma delete_removes (t : Table) (i : Z) (r : Task) :
  In r (rows (delete t i)) <-> In r (rows t) /\ id r <> i.
Proof.
  unfold delete. cbn [rows]. rewrite filter_In. unfold has_id.
  rewrite negb_true_iff, Z.eqb_neq. tauto.
Qed.

End SqlFacts.

(** ** The order of a listing *)

Module OrderFacts.

Import Sql.

Lemma compare_as_OT (a b : string) :
  String.compare a b = String_as_OT.compare a b.
Proof.
  revert b. induction a as [|x a IH]; destruct b as [|y b]; reflexivity.
Qed.

Lemma ltb_lt (a b : string) : String.ltb a b = true <-> String_as_OT.lt a b.
Proof.
  unfold String.ltb, String_as_OT.lt. rewrite compare_as_OT.
  destruct (String_as_OT.compare a b); split; congruence.
Qed.

Lemma ltb_trans (a b c : string) :
  String.ltb a b = true -> String.ltb b c = true -> String.ltb a c = true.
Proof.
  rewrite !ltb_lt. intros H1 H2.
  exact (StrictOrder_Transitive (R := String_as_OT.lt) a b c H1 H2).
Qed.

Lemma ltb_irrefl (a : string) : String.ltb a a = false.
Proof.
  destruct (String.ltb a a) eqn:E; [|reflexivity].
  apply ltb_lt in E.
  destruct (StrictOrder_Irreflexive (R := String_as_OT.lt) a E).
Qed.

Lemma not_ltb (a b : string) :
  String.ltb a b = false -> String.ltb b a = true \/ a = b.
Proof.
  unfold String.ltb. rewrite (String.compare_antisym b a).
  destruct (String.compare a b) eqn:E; simpl; intros H.
  - right. now apply String.compare_eq_iff.
  - discriminate.
  - now left.
Qed.

Lemma place_perm (r : Task) (l : list Task) : Permutation (place r l) (r :: l).
Proof.
  induction l as [|x l IH]; simpl; [reflexivity|].
  destruct (String.ltb (created_at r) (created_at x)); [|reflexivity].
  rewrite IH. apply perm_swap.
Qed.

Lemma order_perm (l : list Task) : Permutation (order_by_created_at_desc l) l.
Proof.
  induction l as [|x l IH]; simpl; [reflexivity|].
  rewrite place_perm. now constructor.
Qed.

(** A row with the lowest id of all goes in front of its equals. *)
Lemma place_sorted (r : Task) (l : list Task) :
  StronglySorted before l ->
  Forall (fun y => id r < id y) l ->
  StronglySorted before (place r l).
Proof.
  induction l as [|x l IH]; intros Hs Hid; simpl.
  - repeat constructor.
  - inversion Hs as [|? ? Hs' Hx]; subst.
    inversion Hid as [|? ? Hidx Hid']; subst.
    destruct (String.ltb (created_at r) (created_at x)) eqn:E.
    + constructor; [now apply IH|].
      apply Forall_forall. intros y Hy.
      apply (Permutation_in _ (place_perm r l)) in Hy.
      destruct Hy as [<-|Hy]; [now left|].
      rewrite Forall_forall in Hx. now apply Hx.
    + assert (Hrx : before r x).
      { destruct (not_ltb _ _ E) as [H| H]; [now left|right; now split]. }
      constructor; [exact Hs|]. constructor; [exact Hrx|].
      apply Forall_forall. intros y Hy.
      rewrite Forall_forall in Hx, Hid'.
      specialize (Hx y Hy). specialize (Hid' y Hy).
      destruct Hrx as [Hrx|[Hrx _]], Hx as [Hx|[Hx _]].
      * left. eapply ltb_trans; eassumption.
      * left. now rewrite <- Hx.
      * left. now rewrite Hrx.
      * right. split; [congruence|assumption].
Qed.

Lemma ascending_cons (x : Task) (l : list Task) :
  ascending (x :: l) = true ->
  Forall (fun y => id x < id y) l /\ ascending l = true.
Proof.
  simpl. intros H. apply andb_prop in H as [H1 H2]. split; [|exact H2].
  apply Forall_forall. intros y Hy. rewrite forallb_forall in H1.
  apply Z.ltb_lt. now apply H1.
Qed.

Lemma ascending_filter (f : Task -> bool) (l : list Task) :
  ascending l = true -> ascending (filter f l) = true.
Proof.
  induction l as [|x l IH]; intros H; [reflexivity|].
  destruct (ascending_cons _ _ H) as [Hx Hl]. simpl.
  destruct (f x); [|now apply IH]. simpl. rewrite (IH Hl), andb_true_r.
  apply forallb_forall. intros y Hy. apply filter_In in Hy as [Hy _].
  rewrite Forall_forall in Hx. apply Z.ltb_lt. now apply Hx.
Qed.

(** The sorter on a scan in rowid order: later instants first, and on
    equal instants the order of the scan. *)
Lemma order_sorted (l : list Task) :
  ascending l = true -> StronglySorted before (order_by_created_at_desc l).
Proof.
  induction l as [|x l IH]; intros H; simpl; [constructor|].
  destruct (ascending_cons _ _ H) as [Hx Hl].
  apply place_sorted; [now apply IH|].
  apply Forall_forall. intros y Hy.
  apply (Permutation_in _ (order_perm l)) in Hy.
  rewrite Forall_forall in Hx. now apply Hx.
Qed.

End OrderFacts.

(** ** The methods on an initialized instance *)

Section MethodFacts.

Variable host : Host.

Lemma initialize_ready t s j :
  initialize host (ready t s j) = Ok tt (ready t s j).
Proof. reflexivity. Qed.

Lemma saveToLocalStorage_ready t s j :
  saveToLocalStorage host (ready t s j)
  = Ok tt (ready t (Some (snapshot host (Some t)))
                 (j ++ [SetItem (snapshot host (Some t))])).
Proof. reflexivity. Qed.

Lemma getTaskById_ready i t s j :
  getTaskById host i (ready t s j)
  = Ok (hd_error (Sql.select_by_id t i))
       (ready t s (j ++ [Executed SelectById])).
Proof. reflexivity. Qed.

Lemma getAllTasks_ready u t s j :
  getAllTasks host u (ready t s j)
  = Ok (Sql.select_by_user t u) (ready t s (j ++ [Executed SelectByUser])).
Proof. reflexivity. Qed.

Lemma createTask_ready ti de pr us now t s j :
  createTask host ti de pr us now (ready t s j)
  = match Sql.insert t ti de
            (match pr with Some p => p | None => "medium" end) us now with
    | inl e => Throw (SqlError e) (ready t s j)
    | inr (t', i) =>
        Ok (hd_error (Sql.select_by_id t' (js_number i)))
           (ready t' (Some (snapshot host (Some t')))
              (j ++ [Executed Insert; Executed SelectLastInsertRowid;
                     SetItem (snapshot host (Some t'));
                     Executed SelectById]))
    end.
Proof.
  unfold createTask, bind, ready. cbn [initialize initialized].
  unfold tasks, bind, connection, ret. cbn [db].
  destruct (Sql.insert t ti de _ us now) as [e|[t' i]]; [reflexivity|].
  cbv [set_db executed saveToLocalStorage bind connection setItem getTaskById
       initialize tasks ret db initialized localStorage journal].
  rewrite <- !app_assoc. reflexivity.
Qed.

(** With room in the table the call returns the row it inserted. *)
Lemma createTask_room ti de pr us now t s j :
  has_room t = true ->
  exists i,
    Sql.next_rowid t = inr i
    /\ safe_integer i = true
    /\ let p := match pr with Some p => p | None => "medium" end in
       let task := mkTask i ti de "pending" p us now now in
       let t' := mkTable (rows t ++ [task]) i in
       createTask host ti de pr us now (ready t s j)
       = Ok (Some task)
            (ready t' (Some (snapshot host (Some t')))
               (j ++ [Executed Insert; Executed SelectLastInsertRowid;
                      SetItem (snapshot host (Some t'));
                      Executed SelectById])).
Proof.
  unfold has_room. destruct (Sql.next_rowid t) as [e|i] eqn:Hn;
    [discriminate|].
  intros Hs. exists i. split; [reflexivity|]. split; [exact Hs|].
  cbv zeta. rewrite createTask_ready.
  rewrite (@SqlFacts.insert_ok t ti de _ us now i Hn).
  rewrite (@SqlFacts.js_number_safe i Hs).
  now rewrite (@SqlFacts.select_by_id_insert t ti de _ us now i Hn).
Qed.

Lemma updateTask_ready_empty i now t s j :
  updateTask host i [] now (ready t s j) = getTaskById host i (ready t s j).
Proof. reflexivity. Qed.

Lemma updateTask_ready i f v rest now t s j :
  updateTask host i ((f, v) :: rest) now (ready t s j)
  = match Sql.update host t ((f, v) :: rest) now i with
    | inl e => Throw (SqlError e) (ready t s j)
    | inr t' =>
        Ok (hd_error (Sql.select_by_id t' i))
           (ready t' (Some (snapshot host (Some t')))
              (j ++ [Executed (Update (f :: map fst rest));
                     SetItem (snapshot host (Some t'));
                     Executed SelectById]))
    end.
Proof.
  unfold updateTask, bind, ready. cbn [initialize initialized map fst].
  unfold tasks, bind, connection, ret. cbn [db].
  destruct (Sql.update host t ((f, v) :: rest) now i) as [e|t']; [reflexivity|].
  cbv [set_db executed saveToLocalStorage bind connection setItem getTaskById
       initialize tasks ret db initialized localStorage journal].
  rewrite <- !app_assoc. reflexivity.
Qed.

Lemma deleteTask_ready i t s j :
  deleteTask host i (ready t s j)
  = Ok true
       (ready (Sql.delete t i) (Some (snapshot host (Some (Sql.delete t i))))
          (j ++ [Executed Delete;
                 SetItem (snapshot host (Some (Sql.delete t i)))])).
Proof.
  unfold deleteTask, bind, ready. cbn [initialize initialized].
  cbv [set_db executed saveToLocalStorage bind connection setItem
       tasks ret db initialized localStorage journal].
  rewrite <- !app_assoc. reflexivity.
Qed.

(** *** Initialization *)

(** No snapshot under the key: an empty database is created and saved. *)
Lemma initialize_fresh_empty s j :
  truthy s = false ->
  initialize host (fresh s j)
  = Ok tt (ready empty_table (Some (snapshot host (Some empty_table)))
             (j ++ [Executed CreateTable;
                    SetItem (snapshot host (Some empty_table))])).
Proof.
  intros H. unfold initialize, fresh. cbn [initialized localStorage].
  rewrite H.
  cbv [set_db executed saveToLocalStorage bind connection setItem
       initializeDatabase set_initialized ret db initialized localStorage
       journal ready].
  rewrite <- !app_assoc. reflexivity.
Qed.

(** A snapshot that loads: the table it holds is the table in memory. *)
Lemma initialize_fresh_loaded s l d j :
  String.eqb s "" = false ->
  snapshot_bytes host s = Some l ->
  sqlite_open host l = Some d ->
  let t := match d with Some t => t | None => empty_table end in
  initialize host (fresh (Some s) j)
  = Ok tt (ready t (Some (snapshot host (Some t)))
             (j ++ [Executed CreateTable; SetItem (snapshot host (Some t))])).
Proof.
  intros Hs Hl Hd t. unfold initialize, fresh.
  cbn [initialized localStorage truthy]. rewrite Hs. cbn [negb].
  rewrite Hl. unfold bind at 1. unfold bind at 1. unfold set_db at 1.
  rewrite Hd.
  cbv [set_db executed saveToLocalStorage bind connection setItem
       initializeDatabase set_initialized ret db initialized localStorage
       journal ready].
  rewrite <- !app_assoc. reflexivity.
Qed.

(** A text that does not parse: the call throws at once. *)
Lemma initialize_fresh_unparsed s j :
  String.eqb s "" = false ->
  snapshot_bytes host s = None ->
  initialize host (fresh (Some s) j) = Throw SyntaxError (fresh (Some s) j).
Proof.
  intros Hs Hl. unfold initialize, fresh.
  cbn [initialized localStorage truthy]. rewrite Hs. cbn [negb].
  rewrite Hl. reflexivity.
Qed.

(** Bytes that are no database: the first statement throws. *)
Lemma initialize_fresh_rejected s l j :
  String.eqb s "" = false ->
  snapshot_bytes host s = Some l ->
  sqlite_open host l = None ->
  initialize host (fresh (Some s) j)
  = Throw (SqlError Sql.NotADatabase) (mkWorld (Some Broken) false (Some s) j).
Proof.
  intros Hs Hl Hd. unfold initialize, fresh.
  cbn [initialized localStorage truthy]. rewrite Hs. cbn [negb].
  rewrite Hl. unfold bind at 1. unfold bind at 1. unfold set_db at 1.
  rewrite Hd. reflexivity.
Qed.

End MethodFacts.

(** ** Entering a method *)

Section EntryFacts.

Variable host : Host.

(** A successful [initialize] leaves an initialized instance; when it had
    work to do, that instance has its table and the key holds the
    snapshot of it. *)
Lemma initialize_ok (w w1 : World) :
  initialize host w = Ok tt w1 ->
  initialized w1 = true
  /\ (exists events, journal w1 = (journal w ++ events)%list)
  /\ (initialized w = false ->
      exists t, w1 = ready t (Some (snapshot host (Some t))) (journal w1)).
Proof.
  destruct w as [d ini ls j]. unfold initialize. cbn [initialized].
  destruct ini.
  - intros H. injection H as <-. cbn. split; [reflexivity|]. split.
    + exists []. now rewrite app_nil_r.
    + discriminate.
  - cbn [localStorage]. destruct (truthy ls).
    + destruct (snapshot_bytes host _) as [l|]; [|discriminate].
      unfold bind at 1. unfold bind at 1. unfold set_db at 1.
      destruct (sqlite_open host l) as [d'|]; [|discriminate].
      cbv [set_db executed saveToLocalStorage bind connection setItem
           initializeDatabase set_initialized ret db initialized localStorage
           journal].
      intros H. injection H as <-. cbn. split; [reflexivity|]. split.
      * eexists. rewrite <- app_assoc. reflexivity.
      * intros _. eexists. reflexivity.
    + cbv [set_db executed saveToLocalStorage bind connection setItem
           initializeDatabase set_initialized ret db initialized localStorage
           journal].
      intros H. injection H as <-. cbn. split; [reflexivity|]. split.
      * eexists. rewrite <- app_assoc. reflexivity.
      * intros _. eexists. reflexivity.
Qed.

(** A method that returns has run its body on an initialized instance. *)
Lemma entered {A} (body : M A) (w w' : World) (r : A) :
  (initialize host ;; body) w = Ok r w' ->
  exists w1 events,
    initialized w1 = true
    /\ journal w1 = (journal w ++ events)%list
    /\ (initialize host ;; body) w1 = Ok r w'.
Proof.
  unfold bind at 1. destruct (initialize host w) as [[] w1|] eqn:E;
    [|discriminate].
  intros H. destruct (initialize_ok _ E) as [Hi [[ev Hj] _]].
  exists w1, ev. repeat split; trivial.
  unfold bind at 1. destruct w1 as [d ini ls j]. cbn in Hi. subst ini.
  exact H.
Qed.

(** The first call on a new instance is the call on the instance its
    initialization leaves. *)
Lemma first_call {A} (body : M A) (w w1 : World) :
  initialize host w = Ok tt w1 ->
  (initialize host ;; body) w = body w1.
Proof. intros H. unfold bind. now rewrite H. Qed.

(** An initialized instance on which a statement can run is [ready]. *)
Lemma initialized_cases (w : World) :
  initialized w = true ->
  (exists t, w = ready t (localStorage w) (journal w))
  \/ (forall {A} (k : Table -> M A) r w',
         (initialize host ;; t <- tasks ;; k t) w <> Ok r w').
Proof.
  destruct w as [d ini ls j]. cbn. intros ->.
  destruct d as [[|[t|]]|].
  - right. intros A k r w'. discriminate.
  - left. now exists t.
  - right. intros A k r w'. discriminate.
  - right. intros A k r w'. discriminate.
Qed.

End EntryFacts.

(** ** Tables stay in rowid order *)

Module RowidFacts.

Import Sql.

Lemma ascending_spec (l : list Task) :
  ascending l = true <-> StronglySorted (fun a b => id a < id b) l.
Proof.
  induction l as [|x l IH]; simpl.
  - split; [constructor|reflexivity].
  - rewrite andb_true_iff, IH, forallb_forall. split.
    + intros [Hx Hl]. constructor; [exact Hl|].
      apply Forall_forall. intros y Hy. apply Z.ltb_lt. now apply Hx.
    + intros H. inversion H as [|? ? Hl Hx]; subst. split; [|exact Hl].
      intros y Hy. rewrite Forall_forall in Hx. apply Z.ltb_lt. now apply Hx.
Qed.

Lemma ascending_ids (l l' : list Task) :
  map id l = map id l' -> ascending l = ascending l'.
Proof.
  revert l'. induction l as [|x l IH]; destruct l' as [|x' l'];
    try discriminate; [reflexivity|].
  simpl. intros H. injection H as Hx Hl. rewrite (IH _ Hl). f_equal.
  rewrite Hx. clear - Hl. revert l' Hl.
  induction l as [|y l IH]; destruct l' as [|y' l']; try discriminate;
    [reflexivity|].
  simpl. intros H. injection H as Hy Hl. now rewrite Hy, (IH _ Hl).
Qed.

Lemma ascending_snoc (l : list Task) (x : Task) :
  ascending l = true ->
  (forall y, In y l -> id y < id x) ->
  ascending (l ++ [x]) = true.
Proof.
  induction l as [|a l IH]; intros Hl Hx; [reflexivity|].
  destruct (OrderFacts.ascending_cons _ _ Hl) as [Ha Hl'].
  simpl. apply andb_true_iff. split.
  - rewrite forallb_app. apply andb_true_iff. split.
    + apply forallb_forall. intros y Hy. rewrite Forall_forall in Ha.
      apply Z.ltb_lt. now apply Ha.
    + simpl. rewrite andb_true_r. apply Z.ltb_lt. apply Hx. now left.
  - apply IH; [exact Hl'|]. intros y Hy. apply Hx. now right.
Qed.

Lemma insert_ascending (t t' : Table) (ti de pr us now : string) (i : Z) :
  insert t ti de pr us now = inr (t', i) ->
  ascending (rows t) = true ->
  ascending (rows t') = true.
Proof.
  intros E H. apply SqlFacts.insert_inv in E as [Hn ->]. cbn [rows].
  apply ascending_snoc; [exact H|]. intros y Hy. cbn [id].
  exact (@SqlFacts.next_rowid_above t i y Hn Hy).
Qed.

Lemma delete_ascending (t : Table) (i : Z) :
  ascending (rows t) = true -> ascending (rows (delete t i)) = true.
Proof. intros H. unfold delete. cbn [rows]. now apply OrderFacts.ascending_filter. Qed.

Lemma replace_row_ids (i : Z) (r r' : Task) (l : list Task) :
  find (has_id i) l = Some r -> id r' = id r ->
  map id (replace_row i r' l) = map id l.
Proof.
  induction l as [|x l IH]; [discriminate|]. simpl.
  destruct (has_id i x).
  - intros H Hid. injection H as ->. simpl. now rewrite Hid.
  - intros H Hid. simpl. now rewrite IH.
Qed.

Lemma remove_row_in (i : Z) (l : list Task) (y : Task) :
  In y (remove_row i l) -> In y l.
Proof.
  induction l as [|x l IH]; [contradiction|]. simpl.
  destruct (has_id i x); [now right|].
  intros [->|H]; [now left|right; now apply IH].
Qed.

Lemma remove_row_ascending (i : Z) (l : list Task) :
  ascending l = true -> ascending (remove_row i l) = true.
Proof.
  induction l as [|x l IH]; intros H; [reflexivity|].
  destruct (OrderFacts.ascending_cons _ _ H) as [Hx Hl]. simpl.
  destruct (has_id i x); [exact Hl|]. simpl.
  rewrite (IH Hl), andb_true_r. apply forallb_forall. intros y Hy.
  apply remove_row_in in Hy. rewrite Forall_forall in Hx.
  apply Z.ltb_lt. now apply Hx.
Qed.

Lemma insert_by_rowid_in (r : Task) (l : list Task) (y : Task) :
  In y (insert_by_rowid r l) <-> y = r \/ In y l.
Proof.
  induction l as [|x l IH]; simpl.
  - intuition.
  - destruct (id r <? id x); simpl; [intuition|]. rewrite IH. intuition.
Qed.

Lemma insert_by_rowid_ascending (r : Task) (l : list Task) :
  ascending l = true ->
  (forall y, In y l -> id y <> id r) ->
  ascending (insert_by_rowid r l) = true.
Proof.
  induction l as [|x l IH]; intros Hl Hr; [reflexivity|].
  destruct (OrderFacts.ascending_cons _ _ Hl) as [Hx Hl']. simpl.
  rewrite Forall_forall in Hx.
  destruct (id r <? id x) eqn:E.
  - apply Z.ltb_lt in E. change (ascending (r :: x :: l) = true).
    change (forallb (fun y => id r <? id y) (x :: l) && ascending (x :: l)
            = true).
    rewrite Hl, andb_true_r.
    apply forallb_forall. intros y [<-|Hy]; apply Z.ltb_lt; [exact E|].
    specialize (Hx y Hy). lia.
  - apply Z.ltb_ge in E. cbn [ascending].
    rewrite IH; [|exact Hl'|intros y Hy; apply Hr; now right].
    rewrite andb_true_r. apply forallb_forall. intros y Hy.
    apply insert_by_rowid_in in Hy. apply Z.ltb_lt.
    destruct Hy as [->|Hy]; [|now apply Hx].
    assert (id x <> id r) by (apply Hr; now left). lia.
Qed.

Lemma update_ascending (host : Host) (t t' : Table)
    (u : list (string * string)) (now : string) (i : Z) :
  update host t u now i = inr t' ->
  ascending (rows t) = true -> ascending (rows t') = true.
Proof.
  unfold update. destruct (resolve_all host u) as [e|sets]; [discriminate|].
  destruct (find (has_id i) (rows t)) as [r|] eqn:Hf.
  2:{ intros H. now injection H as <-. }
  destruct (assign_all host r _) as [r'|]; [|discriminate].
  destruct (id r' =? id r) eqn:Hid.
  - intros H Hasc. injection H as <-. cbn [rows].
    apply Z.eqb_eq in Hid.
    now rewrite (@ascending_ids _ _ (@replace_row_ids i r r' (rows t) Hf Hid)).
  - destruct (existsb (has_id (id r')) (rows t)) eqn:Hex; [discriminate|].
    intros H Hasc. injection H as <-. cbn [rows].
    apply insert_by_rowid_ascending; [now apply remove_row_ascending|].
    intros y Hy. apply remove_row_in in Hy. intros Heq.
    assert (existsb (has_id (id r')) (rows t) = true); [|congruence].
    apply existsb_exists. exists y. split; [exact Hy|].
    unfold has_id. now apply Z.eqb_eq.
Qed.

End RowidFacts.

(** ** What an update writes *)

Module UpdateFacts.

Import Sql.

Lemma find_has_id (i : Z) (l : list Task) (r : Task) :
  find (has_id i) l = Some r -> In r l /\ id r = i.
Proof.
  intros H. apply find_some in H as [Hin Hid]. split; [exact Hin|].
  unfold has_id in Hid. now apply Z.eqb_eq.
Qed.

(** After a row is replaced by one of the same id, a read by that id finds
    the new row. *)
Lemma select_replaced (i : Z) (r r' : Task) (l : list Task) :
  find (has_id i) l = Some r -> id r' = i ->
  hd_error (filter (has_id i) (replace_row i r' l)) = Some r'.
Proof.
  intros Hf Hid. induction l as [|x l IH]; [discriminate|]. simpl in *.
  destruct (has_id i x) eqn:E.
  - simpl. unfold has_id at 1. rewrite Hid, Z.eqb_refl. reflexivity.
  - simpl. rewrite E. now apply IH.
Qed.

(** The rows other than the one replaced are as they were. *)
Lemma replace_row_others (i : Z) (r' : Task) (l : list Task) (y : Task) :
  In y l -> id y <> i -> In y (replace_row i r' l).
Proof.
  induction l as [|x l IH]; [contradiction|]. simpl. intros [->|Hy] Hn.
  - destruct (has_id i y) eqn:E.
    + unfold has_id in E. apply Z.eqb_eq in E. contradiction.
    + now left.
  - destruct (has_id i x); right; [exact Hy|now apply IH].
Qed.

Section Writes.

Variable host : Host.

(** A column of the schema resolves to itself. *)
Lemma resolve_schema (c : Column) : resolve host (column_name c) = Some c.
Proof. destruct c; reflexivity. Qed.

(** An assignment to a text column keeps the id. *)
Lemma assign_text (r : Task) (c : Column) (v : string) :
  c <> c_id ->
  exists r', assign host r c v = Some r' /\ id r' = id r.
Proof. destruct c; intros H; try contradiction; eexists; split; reflexivity. Qed.

(** An update of [status] alone, whatever the value: the row of that id
    takes the value and the clock, all other fields as before. *)
Lemma update_status_any (i : Z) (v now : string) (t : Table) (r : Task)
    (s : option string) (j : list Event) :
  find (has_id i) (rows t) = Some r ->
  let r' := mkTask (id r) (title r) (description r) v (priority r)
                   (user_id r) (created_at r) now in
  returned (updateTask host i [("status", v)] now (ready t s j))
  = Some (Some r').
Proof.
  intros Hf r'. rewrite updateTask_ready. unfold update.
  cbn [resolve_all]. change (resolve host "status") with (Some c_status).
  cbn iota. rewrite Hf. cbn [app assign_all assign id].
  rewrite Z.eqb_refl. cbn [returned]. f_equal. unfold select_by_id.
  cbn [rows]. apply select_replaced with (r := r); [exact Hf|].
  cbn [id]. now apply find_has_id in Hf.
Qed.

(** An update of [user_id] alone: the owner of the row is rewritten. *)
Lemma update_user_id_any (i : Z) (v now : string) (t : Table) (r : Task)
    (s : option string) (j : list Event) :
  find (has_id i) (rows t) = Some r ->
  let r' := mkTask (id r) (title r) (description r) (status r) (priority r)
                   v (created_at r) now in
  returned (updateTask host i [("user_id", v)] now (ready t s j))
  = Some (Some r').
Proof.
  intros Hf r'. rewrite updateTask_ready. unfold update.
  cbn [resolve_all]. change (resolve host "user_id") with (Some c_user_id).
  cbn iota. rewrite Hf. cbn [app assign_all assign id].
  rewrite Z.eqb_refl. cbn [returned]. f_equal. unfold select_by_id.
  cbn [rows]. apply select_replaced with (r := r); [exact Hf|].
  cbn [id]. now apply find_has_id in Hf.
Qed.

(** A field name the engine resolves to no column: the call throws and
    the instance is as it was. *)
Lemma update_unknown_field (i : Z) (f v now : string)
    (rest : list (string * string)) (t : Table) (s : option string)
    (j : list Event) :
  resolve host f = None ->
  updateTask host i ((f, v) :: rest) now (ready t s j)
  = Throw (SqlError (NoSuchColumn f)) (ready t s j).
Proof.
  intros H. rewrite updateTask_ready. unfold update. cbn [resolve_all].
  now rewrite H.
Qed.

End Writes.

End UpdateFacts.

(** ** The repository contract *)

Section Contract.

Variable host : Host.

(** From a method that returned to its body on a [ready] instance. *)
Ltac enter H t ls j ev Hj :=
  let w1 := fresh "w1" in
  let Hi := fresh "Hi" in
  let Hb := fresh "Hb" in
  let d := fresh "d" in
  let ini := fresh "ini" in
  destruct (entered host _ _ H) as (w1 & ev & Hi & Hj & Hb);
  clear H; rename Hb into H;
  destruct w1 as [d ini ls j]; cbn in Hi, Hj; subst ini;
  destruct d as [[|[t|]]|]; try discriminate H.

(** The journal and the key after a save of [t] that [after] follows. *)
Lemma written_after (t : Table) (w : World) (ev pre after : list Event) :
  existsb is_write after = false ->
  snapshot_written host w
    (ready t (Some (snapshot host (Some t)))
       ((journal w ++ ev)
        ++ pre ++ SetItem (snapshot host (Some t)) :: after)).
Proof.
  intros Ha. exists t, (ev ++ pre)%list, after. cbv zeta.
  cbn [table_of db ready localStorage journal].
  split; [reflexivity|]. split; [reflexivity|].
  split; [now rewrite <- !app_assoc|]. split; [exact Ha|].
  unfold snapshot_bytes. now rewrite JsonFacts.parse_stringify.
Qed.

(** C6, as the code has it.  A create, an update that names at least one
    field, or a delete that returns has written under the durable key,
    during the call and as its last write, the JSON array of the bytes the
    engine exports for the table the call leaves in memory: that text is
    what the key holds when the call returns, and read back it gives those
    bytes.  An update that names no field, on an initialized instance,
    writes nothing and leaves table and key as they were. *)
Theorem mutation_writes_snapshot (m : Mutation) (w w' : World) :
  completes host m w w' ->
  (mutates m = true -> snapshot_written host w w')
  /\ (mutates m = false -> initialized w = true -> nothing_written w w').
Proof.
  intros Hc. destruct m as [ti de pr us now|i u now|i]; cbn in Hc;
    destruct Hc as [r H].
  - split; [intros _|discriminate].
    unfold createTask in H. enter H t ls j ev Hj.
    change (createTask host ti de pr us now (ready t ls j) = Ok r w') in H.
    rewrite createTask_ready in H.
    destruct (Sql.insert t ti de _ us now) as [e|[t' k]]; [discriminate|].
    injection H as _ <-. rewrite Hj.
    apply (@written_after t' w ev
             [Executed Insert; Executed SelectLastInsertRowid]
             [Executed SelectById]).
    reflexivity.
  - destruct u as [|[f v] rest].
    + split; [discriminate|intros _ Hini].
      destruct w as [d ini ls j]. cbn in Hini. subst ini.
      destruct d as [[|[t|]]|]; try discriminate H.
      change (updateTask host i [] now (ready t ls j) = Ok r w') in H.
      rewrite updateTask_ready_empty, getTaskById_ready in H.
      injection H as _ <-. exists [Executed SelectById]. repeat split.
    + split; [intros _|discriminate].
      unfold updateTask in H. enter H t ls j ev Hj.
      change (updateTask host i ((f, v) :: rest) now (ready t ls j)
              = Ok r w') in H.
      rewrite updateTask_ready in H.
      destruct (Sql.update host t ((f, v) :: rest) now i) as [e|t'];
        [discriminate|].
      injection H as _ <-. rewrite Hj.
      apply (@written_after t' w ev
               [Executed (Update (f :: map fst rest))]
               [Executed SelectById]).
      reflexivity.
  - split; [intros _|discriminate].
    unfold deleteTask in H. enter H t ls j ev Hj.
    change (deleteTask host i (ready t ls j) = Ok r w') in H.
    rewrite deleteTask_ready in H. injection H as _ <-. rewrite Hj.
    apply (@written_after (Sql.delete t i) w ev [Executed Delete] []).
    reflexivity.
Qed.

(** C7.  On an initialized instance [deleteTask] returns [true] for every
    id; it leaves the table without the rows of that id, which is the table
    it found when no row has the id; and a second call with the same id
    returns [true] again and leaves the same table and the same snapshot. *)
Theorem delete_idempotent (i : Z) (t : Table) (s : option string)
    (j : list Event) :
  exists w1 w2,
    deleteTask host i (ready t s j) = Ok true w1
    /\ deleteTask host i w1 = Ok true w2
    /\ table_of w1 = Some (Sql.delete t i)
    /\ (forall r, In r (rows (Sql.delete t i))
                  <-> In r (rows t) /\ id r <> i)
    /\ ((forall r, In r (rows t) -> id r <> i) -> table_of w1 = Some t)
    /\ table_of w2 = table_of w1
    /\ localStorage w2 = localStorage w1.
Proof.
  eexists _, _. rewrite deleteTask_ready. split; [reflexivity|].
  rewrite deleteTask_ready. split; [reflexivity|].
  cbn [table_of db ready localStorage]. rewrite SqlFacts.delete_idem.
  split; [reflexivity|]. split; [apply SqlFacts.delete_removes|].
  split; [|split; reflexivity].
  intros H. now rewrite SqlFacts.delete_absent.
Qed.

(** C8, as the code has it.  On an initialized instance whose table has
    room for a row, [createTask] followed by [getTaskById] on the id of the
    row it returned gives that row again: its title, description, priority
    and owner are the arguments of the call ([medium] for a priority left
    out), its status is [pending], its id is new in the table and above
    the counter, and both timestamps are the clock value of the insert. *)
Theorem create_then_getById (ti de : string) (pr : option string)
    (us now : string) (t : Table) (s : option string) (j : list Event) :
  has_room t = true ->
  exists task w1 w2,
    createTask host ti de pr us now (ready t s j) = Ok (Some task) w1
    /\ getTaskById host (id task) w1 = Ok (Some task) w2
    /\ title task = ti
    /\ description task = de
    /\ priority task = match pr with Some p => p | None => "medium" end
    /\ user_id task = us
    /\ status task = "pending"
    /\ created_at task = now
    /\ updated_at task = created_at task
    /\ (forall r, In r (rows t) -> id r < id task)
    /\ seq t < id task.
Proof.
  intros Hroom.
  destruct (@createTask_room host ti de pr us now t s j Hroom)
    as (i & Hn & _ & E).
  cbv zeta in E. eexists _, _, _. split; [exact E|].
  rewrite getTaskById_ready. cbn [id].
  rewrite (@SqlFacts.select_by_id_insert t ti de _ us now i Hn).
  cbn [hd_error]. split; [reflexivity|]. cbn.
  repeat split; try reflexivity.
  - intros r Hr. exact (@SqlFacts.next_rowid_above t i r Hn Hr).
  - exact (@SqlFacts.next_rowid_above_seq t i Hn).
Qed.

(** C10.  On an initialized instance [updateTask] with an object of no
    fields is [getTaskById]: it returns the first row of that id, or
    nothing when there is none, leaves the table and the durable key as
    they are, and adds to the journal the one SELECT, no UPDATE and no
    write. *)
Theorem update_without_fields_reads (i : Z) (now : string) (t : Table)
    (s : option string) (j : list Event) :
  updateTask host i [] now (ready t s j) = getTaskById host i (ready t s j)
  /\ updateTask host i [] now (ready t s j)
     = Ok (find (Sql.has_id i) (rows t))
          (ready t s (j ++ [Executed SelectById])).
Proof.
  split; [reflexivity|].
  rewrite updateTask_ready_empty, getTaskById_ready. f_equal.
  unfold Sql.select_by_id.
  induction (rows t) as [|x l IH]; [reflexivity|]. simpl.
  destruct (Sql.has_id i x); [reflexivity|exact IH].
Qed.

End Contract.

(** ** Listings *)

Section Listing.

Variable host : Host.

(** C4, as the code has it.  On an initialized instance whose table is in
    rowid order, [getAllTasks] returns exactly the rows of the user, each as
    often as the table has it and none of another user, later creation
    instants first; two rows of one instant stand in the order of the
    table scan, the lower id first; and the same call made again returns
    the same list. *)
Theorem getAll_listing (u : string) (t : Table) (s : option string)
    (j : list Event) :
  ascending (rows t) = true ->
  exists l w',
    getAllTasks host u (ready t s j) = Ok l w'
    /\ Permutation l (filter (fun r => String.eqb (user_id r) u) (rows t))
    /\ (forall r, In r l <-> In r (rows t) /\ user_id r = u)
    /\ StronglySorted before l
    /\ returned (getAllTasks host u w') = Some l.
Proof.
  intros Hasc. eexists _, _. rewrite getAllTasks_ready.
  split; [reflexivity|]. unfold Sql.select_by_user.
  split; [apply OrderFacts.order_perm|]. split; [|split].
  - intros r. split.
    + intros Hr. apply (Permutation_in _ (OrderFacts.order_perm _)) in Hr.
      apply filter_In in Hr as [Hr Hu]. now apply String.eqb_eq in Hu.
    + intros [Hr Hu].
      apply (Permutation_in _ (Permutation_sym (OrderFacts.order_perm _))).
      apply filter_In. split; [exact Hr|]. now apply String.eqb_eq.
  - apply OrderFacts.order_sorted. now apply OrderFacts.ascending_filter.
  - rewrite getAllTasks_ready. reflexivity.
Qed.

(** Calls keep the table in rowid order. *)
Lemma mutate_keeps_rowid_order (m : Mutation) (t : Table) (s : option string)
    (j : list Event) :
  ascending (rows t) = true ->
  exists t' s' j',
    mutate host m (ready t s j) = ready t' s' j'
    /\ ascending (rows t') = true.
Proof.
  intros H. destruct m as [ti de pr us now|i u now|i]; unfold mutate.
  - rewrite createTask_ready.
    destruct (Sql.insert t ti de _ us now) as [e|[t' k]] eqn:E;
      eexists _, _, _; (split; [reflexivity|]); [exact H|].
    exact (@RowidFacts.insert_ascending t t' ti de _ us now k E H).
  - destruct u as [|[f v] rest].
    + rewrite updateTask_ready_empty, getTaskById_ready.
      eexists _, _, _. split; [reflexivity|exact H].
    + rewrite updateTask_ready.
      destruct (Sql.update host t ((f, v) :: rest) now i) as [e|t'] eqn:E;
        eexists _, _, _; (split; [reflexivity|]); [exact H|].
      exact (@RowidFacts.update_ascending host t t' _ now i E H).
  - rewrite deleteTask_ready. eexists _, _, _. split; [reflexivity|].
    now apply RowidFacts.delete_ascending.
Qed.

Lemma mutations_keep_rowid_order (l : list Mutation) (t : Table)
    (s : option string) (j : list Event) :
  ascending (rows t) = true ->
  exists t' s' j',
    mutations host l (ready t s j) = ready t' s' j'
    /\ ascending (rows t') = true.
Proof.
  revert t s j. induction l as [|m l IH]; intros t s j H.
  - eexists _, _, _. split; [reflexivity|exact H].
  - cbn [mutations fold_left].
    destruct (@mutate_keeps_rowid_order m t s j H) as (t1 & s1 & j1 & -> & H1).
    now apply IH.
Qed.

(** Every listing of a store that began empty has later instants first
    and, on equal instants, the lower id first. *)
Corollary listing_after_mutations (l : list Mutation) (u : string)
    (s : option string) (j : list Event) :
  exists rs,
    returned (getAllTasks host u (mutations host l (ready empty_table s j)))
    = Some rs
    /\ StronglySorted before rs.
Proof.
  destruct (@mutations_keep_rowid_order l empty_table s j eq_refl)
    as (t & s' & j' & -> & H).
  rewrite getAllTasks_ready. eexists. split; [reflexivity|].
  apply OrderFacts.order_sorted. now apply OrderFacts.ascending_filter.
Qed.

End Listing.

(** A table of three rows, two of one instant and one user. *)
Lemma getAll_listing_witness :
  exists l w',
    getAllTasks Demo.host "u1" (ready Demo.three_tasks None []) = Ok l w'
    /\ Permutation l (filter (fun r => String.eqb (user_id r) "u1")
                             (rows Demo.three_tasks))
    /\ (forall r, In r l <-> In r (rows Demo.three_tasks) /\ user_id r = "u1")
    /\ StronglySorted before l
    /\ returned (getAllTasks Demo.host "u1" w') = Some l.
Proof.
  apply (@getAll_listing Demo.host "u1" Demo.three_tasks None []).
  reflexivity.
Defined.

(** C4, as the contract states it, fails: two tasks created within one
    second by the same user are listed with the lower id first. *)
Lemma getAll_ties_lower_id_first :
  let w := mutations Demo.host
             [Create "Buy milk" "2% milk" (Some "low") "u1"
                     "2024-05-01 10:00:00";
              Create "Buy bread" "rye" None "u1" "2024-05-01 10:00:00"]
             (fresh None []) in
  returned (getAllTasks Demo.host "u1" w) = Some [Demo.milk; Demo.bread]
  /\ created_at Demo.milk = created_at Demo.bread
  /\ id Demo.milk < id Demo.bread
  /\ ~ StronglySorted before_higher_id_first [Demo.milk; Demo.bread].
Proof.
  cbv zeta. split; [vm_compute; reflexivity|]. split; [reflexivity|].
  split; [reflexivity|]. intros H.
  inversion H as [|? ? _ Hall]; subst.
  inversion Hall as [|? ? Hb _]; subst.
  destruct Hb as [Hb|[_ Hb]]; [discriminate Hb|].
  vm_compute in Hb. discriminate Hb.
Qed.

(** ** Snapshots across processes *)

Section Snapshots.

Variable host : Host.

(** An initialized instance whose key is up to date stays so through
    every call, one that throws included. *)
Lemma mutate_keeps_current (m : Mutation) (t : Table) (j : list Event) :
  exists t' j',
    mutate host m (ready t (Some (snapshot host (Some t))) j)
    = ready t' (Some (snapshot host (Some t'))) j'.
Proof.
  destruct m as [ti de pr us now|i u now|i]; unfold mutate.
  - rewrite createTask_ready.
    destruct (Sql.insert t ti de _ us now) as [e|[t' k]];
      eexists _, _; reflexivity.
  - destruct u as [|[f v] rest].
    + rewrite updateTask_ready_empty, getTaskById_ready.
      eexists _, _. reflexivity.
    + rewrite updateTask_ready.
      destruct (Sql.update host t ((f, v) :: rest) now i);
        eexists _, _; reflexivity.
  - rewrite deleteTask_ready. eexists _, _. reflexivity.
Qed.

Lemma mutations_keep_current (l : list Mutation) (t : Table)
    (j : list Event) :
  exists t' j',
    mutations host l (ready t (Some (snapshot host (Some t))) j)
    = ready t' (Some (snapshot host (Some t'))) j'.
Proof.
  revert t j. induction l as [|m l IH]; intros t j.
  - eexists _, _. reflexivity.
  - cbn [mutations fold_left].
    destruct (mutate_keeps_current m t j) as (t1 & j1 & ->). apply IH.
Qed.

(** Loading what a save wrote gives back the table that was saved. *)
Lemma load_saved (t : Table) (j : list Event) :
  sqlite_open host (sqlite_export host (Some t)) = Some (Some t) ->
  initialize host (fresh (Some (snapshot host (Some t))) j)
  = Ok tt (ready t (Some (snapshot host (Some t)))
             (j ++ [Executed CreateTable; SetItem (snapshot host (Some t))])).
Proof.
  intros Hrt.
  apply (@initialize_fresh_loaded host _ (sqlite_export host (Some t))
           (Some t) j).
  - apply JsonFacts.stringify_not_empty.
  - unfold snapshot_bytes, snapshot. now rewrite JsonFacts.parse_stringify.
  - exact Hrt.
Qed.

(** C5.  Take an initialized instance, make any sequence of create, update
    and delete calls, and let [t] be the table then in memory.  If the
    engine reads back its own export of [t], then a save followed by the
    initialization of a new instance on the durable key gives that new
    instance the table [t], row for row and field for field; and the key
    already held that snapshot before the extra save. *)
Theorem save_load_round_trip (l : list Mutation) (t0 t : Table)
    (j0 : list Event) :
  let w := mutations host l (ready t0 (Some (snapshot host (Some t0))) j0) in
  table_of w = Some t ->
  sqlite_open host (sqlite_export host (Some t)) = Some (Some t) ->
  exists w1 w2,
    saveToLocalStorage host w = Ok tt w1
    /\ initialize host (fresh (localStorage w1) []) = Ok tt w2
    /\ table_of w2 = Some t
    /\ localStorage w1 = localStorage w.
Proof.
  intros w Ht Hrt. subst w.
  destruct (mutations_keep_current l t0 j0) as (t' & j' & E).
  rewrite E in *. cbn in Ht. injection Ht as ->.
  rewrite saveToLocalStorage_ready. eexists _, _.
  split; [reflexivity|]. cbn [localStorage ready].
  rewrite (@load_saved t [] Hrt). repeat split.
Qed.


End Snapshots.

(** ** The contract on sample runs *)

(** A run of four calls from a new process. *)
Lemma save_load_round_trip_witness :
  let l := [Create "Buy milk" "2% milk" (Some "low") "u1"
                   "2024-05-01 10:00:00";
            Create "Buy bread" "rye" None "u1" "2024-05-01 10:00:00";
            Change 1 [("status", "completed")] "2024-05-01 12:00:00";
            Remove 2] in
  let t := mkTable
             [mkTask 1 "Buy milk" "2% milk" "completed" "low" "u1"
                     "2024-05-01 10:00:00" "2024-05-01 12:00:00"] 2 in
  let w := mutations Demo.host l
             (ready empty_table
                (Some (snapshot Demo.host (Some empty_table))) []) in
  exists w1 w2,
    saveToLocalStorage Demo.host w = Ok tt w1
    /\ initialize Demo.host (fresh (localStorage w1) []) = Ok tt w2
    /\ table_of w2 = Some t
    /\ localStorage w1 = localStorage w.
Proof.
  intros l t.
  apply (@save_load_round_trip Demo.host l empty_table t []).
  - vm_compute. reflexivity.
  - vm_compute. reflexivity.
Defined.

(** An update of one field on a table of one row. *)
Lemma mutation_writes_snapshot_witness :
  snapshot_written Demo.host
    (ready Demo.one_task None [])
    (world_of (updateTask Demo.host 1 [("status", "completed")]
                 "2024-05-01 12:00:00" (ready Demo.one_task None []))).
Proof.
  refine (proj1 (@mutation_writes_snapshot Demo.host
                   (Change 1 [("status", "completed")] "2024-05-01 12:00:00")
                   _ _ _) eq_refl).
  cbn [completes]. eexists. vm_compute. reflexivity.
Defined.

(** C6, as the contract states it, fails: an update that names no field
    returns the row and writes nothing under the key, also on an instance
    that has made no other call since its first. *)
Lemma update_without_fields_writes_nothing :
  let w := world_of (createTask Demo.host "Buy milk" "2% milk" (Some "low")
                       "u1" "2024-05-01 10:00:00" (fresh None [])) in
  exists w',
    updateTask Demo.host 1 [] "2024-05-01 12:00:00" w = Ok (Some Demo.milk) w'
    /\ journal w' = (journal w ++ [Executed SelectById])%list
    /\ existsb is_write [Executed SelectById] = false.
Proof.
  cbv zeta. eexists. split; [vm_compute; reflexivity|].
  split; [vm_compute; reflexivity|reflexivity].
Qed.

(** A table of three rows with room for a fourth. *)
Lemma create_then_getById_witness :
  exists task w1 w2,
    createTask Demo.host "Call the bank" "about the card" None "u2"
      "2024-05-03 08:00:00" (ready Demo.three_tasks None [])
    = Ok (Some task) w1
    /\ getTaskById Demo.host (id task) w1 = Ok (Some task) w2
    /\ title task = "Call the bank"
    /\ description task = "about the card"
    /\ priority task = "medium"
    /\ user_id task = "u2"
    /\ status task = "pending"
    /\ created_at task = "2024-05-03 08:00:00"
    /\ updated_at task = created_at task
    /\ (forall r, In r (rows Demo.three_tasks) -> id r < id task)
    /\ seq Demo.three_tasks < id task.
Proof.
  apply (@create_then_getById Demo.host "Call the bank" "about the card"
           None "u2" "2024-05-03 08:00:00" Demo.three_tasks None []).
  reflexivity.
Defined.

(** Why room asks for an id JavaScript holds exactly: when the engine
    assigns 2^53 + 1, the number read back is 2^53, and the row returned is
    the row of that id, not the row inserted. *)
Example create_beyond_safe_integer :
  let old := mkTask (2 ^ 53) "Old" "the row of id 2^53" "pending" "low" "u1"
                    "2024-05-01 10:00:00" "2024-05-01 10:00:00" in
  Sql.next_rowid (mkTable [old] (2 ^ 53)) = inr (2 ^ 53 + 1)
  /\ returned (createTask Demo.host "New" "the row inserted" None "u1"
                 "2024-05-02 10:00:00" (ready (mkTable [old] (2 ^ 53)) None []))
     = Some (Some old).
Proof. split; vm_compute; reflexivity. Qed.

(** C8, as the contract states it, fails: on a table that holds the
    largest rowid of the engine a create with valid input throws, inserts
    nothing and writes nothing. *)
Lemma create_on_full_table_throws :
  Server.post_accepts "Buy milk" "2% milk" (Some "low") = true
  /\ createTask Demo.host "Buy milk" "2% milk" (Some "low") "u1"
       "2024-05-01 10:00:00" (ready Demo.full_table None [])
     = Throw (SqlError Sql.Full) (ready Demo.full_table None []).
Proof. split; reflexivity. Qed.



(** C1 at an empty title, and at a priority outside the enum: the embedded
    store runs the INSERT, keeps the row and writes a snapshot, where the
    guard of [POST /api/tasks] turns the same input away. *)
Theorem create_accepts_empty_title :
  let now := "2024-05-01 10:00:00" in
  let row := mkTask 1 "" "2% milk" "pending" "low" "u1" now now in
  let odd := mkTask 1 "Buy milk" "2% milk" "pending" "urgent" "u1" now now in
  createTask Demo.host "" "2% milk" (Some "low") "u1" now
    (ready empty_table None [])
  = Ok (Some row)
       (ready (mkTable [row] 1)
          (Some (snapshot Demo.host (Some (mkTable [row] 1))))
          [Executed Insert; Executed SelectLastInsertRowid;
           SetItem (snapshot Demo.host (Some (mkTable [row] 1)));
           Executed SelectById])
  /\ Server.post_accepts "" "2% milk" (Some "low") = false
  /\ returned (createTask Demo.host "Buy milk" "2% milk" (Some "urgent") "u1"
                 now (ready empty_table None []))
     = Some (Some odd)
  /\ Server.post_accepts "Buy milk" "2% milk" (Some "urgent") = false.
Proof. cbv zeta. repeat split. Qed.

(** C2 at the status [archived]: the embedded store writes it into the row
    and refreshes [updated_at], where the guard of [PUT /api/tasks/:id]
    turns the same object away. *)
Theorem update_writes_unknown_status :
  let now := "2024-05-01 12:00:00" in
  let row := mkTask 1 "Buy milk" "2% milk" "archived" "low" "u1"
                    "2024-05-01 10:00:00" now in
  updateTask Demo.host 1 [("status", "archived")] now
    (ready Demo.one_task None [])
  = Ok (Some row)
       (ready (mkTable [row] 1)
          (Some (snapshot Demo.host (Some (mkTable [row] 1))))
          [Executed (Update ["status"]);
           SetItem (snapshot Demo.host (Some (mkTable [row] 1)));
           Executed SelectById])
  /\ Server.put_accepts [("status", "archived")] = false.
Proof. cbv zeta. repeat split. Qed.

(** C3 at an object that carries [user_id] and [created_at] next to
    [title]: the embedded store writes all three, where
    [PUT /api/tasks/:id] keeps [title] alone; and a field that names no
    column makes the whole call throw, the recognized field beside it not
    applied. *)
Theorem update_applies_unlisted_field :
  let now := "2024-05-01 12:00:00" in
  let updates := [("title", "Buy oat milk"); ("user_id", "u2");
                  ("created_at", "1970-01-01 00:00:00")] in
  let row := mkTask 1 "Buy oat milk" "2% milk" "pending" "low" "u2"
                    "1970-01-01 00:00:00" now in
  returned (updateTask Demo.host 1 updates now (ready Demo.one_task None []))
  = Some (Some row)
  /\ table_of (world_of (updateTask Demo.host 1 updates now
                           (ready Demo.one_task None [])))
     = Some (mkTable [row] 1)
  /\ Server.put_fields updates = [("title", "Buy oat milk")]
  /\ updateTask Demo.host 1 [("title", "Buy oat milk"); ("color", "red")] now
       (ready Demo.one_task None [])
     = Throw (SqlError (Sql.NoSuchColumn "color"))
             (ready Demo.one_task None []).
Proof. cbv zeta. repeat split. Qed.

(** * Further properties of the store *)

(** ** Filters and the sorter *)

Module ListingFacts.

Import Sql.

Lemma not_earlier_trans (a b c : Task) :
  not_earlier a b -> not_earlier b c -> not_earlier a c.
Proof.
  unfold not_earlier. intros Hab Hbc.
  destruct (String.ltb (created_at a) (created_at c)) eqn:E; [|reflexivity].
  destruct (OrderFacts.not_ltb _ _ Hbc) as [H|H].
  - rewrite (OrderFacts.ltb_trans _ _ _ E H) in Hab. discriminate.
  - rewrite H, E in Hab. discriminate.
Qed.

Lemma place_in (r y : Task) (l : list Task) :
  In y (place r l) <-> y = r \/ In y l.
Proof.
  split; intros H.
  - apply (Permutation_in _ (OrderFacts.place_perm r l)) in H.
    destruct H as [<-|H]; [now left|now right].
  - apply (Permutation_in _ (Permutation_sym (OrderFacts.place_perm r l))).
    destruct H as [->|H]; [now left|now right].
Qed.

(** The sorter leaves no row before a row created later. *)
Lemma place_not_earlier (r : Task) (l : list Task) :
  StronglySorted not_earlier l -> StronglySorted not_earlier (place r l).
Proof.
  induction l as [|x l IH]; intros Hs; simpl; [repeat constructor|].
  inversion Hs as [|? ? Hl Hx]; subst. rewrite Forall_forall in Hx.
  destruct (String.ltb (created_at r) (created_at x)) eqn:E.
  - constructor; [now apply IH|]. apply Forall_forall. intros y Hy.
    apply place_in in Hy as [->|Hy]; [|now apply Hx].
    unfold not_earlier.
    destruct (String.ltb (created_at x) (created_at r)) eqn:E'; trivial.
    pose proof (OrderFacts.ltb_trans _ _ _ E E') as F.
    now rewrite OrderFacts.ltb_irrefl in F.
  - constructor; [exact Hs|]. constructor; [exact E|].
    apply Forall_forall. intros y Hy.
    exact (not_earlier_trans E (Hx y Hy)).
Qed.

Lemma order_not_earlier (l : list Task) :
  StronglySorted not_earlier (order_by_created_at_desc l).
Proof.
  induction l as [|x l IH]; simpl; [constructor|].
  now apply place_not_earlier.
Qed.

Lemma place_front (r : Task) (l : list Task) :
  Forall (not_earlier r) l -> place r l = r :: l.
Proof.
  destruct l as [|x l]; [reflexivity|]. intros H.
  inversion H as [|? ? Hx _]; subst. simpl.
  unfold not_earlier in Hx. now rewrite Hx.
Qed.

(** A filter may be applied before the sorter or after it. *)
Lemma filter_place (f : Task -> bool) (r : Task) (l : list Task) :
  StronglySorted not_earlier l ->
  filter f (place r l)
  = if f r then place r (filter f l) else filter f l.
Proof.
  induction l as [|x l IH]; intros Hs; simpl.
  - destruct (f r); reflexivity.
  - inversion Hs as [|? ? Hl Hx]; subst. rewrite Forall_forall in Hx.
    destruct (String.ltb (created_at r) (created_at x)) eqn:E; simpl.
    + rewrite (IH Hl). destruct (f x), (f r); simpl; try reflexivity.
      now rewrite E.
    + destruct (f r); [|reflexivity]. symmetry. apply place_front.
      apply Forall_forall. intros y Hy.
      assert (Hin : In y (x :: l)).
      { destruct (f x); [destruct Hy as [<-|Hy]; [now left|]|];
          right; now apply filter_In in Hy as [Hy _]. }
      destruct Hin as [<-|Hin]; [exact E|].
      exact (not_earlier_trans E (Hx y Hin)).
Qed.

Lemma filter_order (f : Task -> bool) (l : list Task) :
  order_by_created_at_desc (filter f l)
  = filter f (order_by_created_at_desc l).
Proof.
  induction l as [|x l IH]; [reflexivity|]. simpl.
  rewrite (filter_place f x (order_not_earlier l)).
  destruct (f x); simpl; now rewrite IH.
Qed.

Lemma filter_both {A} (f g : A -> bool) (l : list A) :
  filter (fun x => f x && g x) l = filter f (filter g l).
Proof.
  induction l as [|x l IH]; [reflexivity|]. simpl.
  destruct (g x); simpl; [destruct (f x); simpl; now rewrite IH|].
  rewrite andb_false_r. exact IH.
Qed.

Lemma filter_swap {A} (f g : A -> bool) (l : list A) :
  filter f (filter g l) = filter g (filter f l).
Proof.
  rewrite <- !filter_both. apply filter_ext. intros x. apply andb_comm.
Qed.

End ListingFacts.

(** ** Listings by status and by priority, and after a change *)

Section ListingContract.

Variable host : Host.

(** X1.  [getTasksByStatus] returns the rows of [getAllTasks] for the same
    user that have the status, in the order [getAllTasks] gives them: the
    rows of the table with that owner and that status, and no other. *)
Theorem status_listing_filters_user_listing (st u : string) (t : Table)
    (s : option string) (j : list Event) :
  exists l all,
    returned (getTasksByStatus host st u (ready t s j)) = Some l
    /\ returned (getAllTasks host u (ready t s j)) = Some all
    /\ l = filter (fun r => String.eqb (status r) st) all
    /\ (forall r, In r l <-> In r (rows t) /\ status r = st /\ user_id r = u).
Proof.
  eexists _, _. split; [reflexivity|]. split; [reflexivity|].
  unfold Sql.select_by_status, Sql.select_by_user. split.
  - rewrite ListingFacts.filter_both. apply ListingFacts.filter_order.
  - intros r. rewrite ListingFacts.filter_both, ListingFacts.filter_order.
    rewrite !filter_In, String.eqb_eq. split.
    + intros [Hr Hs]. apply (Permutation_in _ (OrderFacts.order_perm _)) in Hr.
      apply filter_In in Hr as [Hr Hu]. apply String.eqb_eq in Hu. tauto.
    + intros (Hr & Hs & Hu). split; [|exact Hs].
      apply (Permutation_in _ (Permutation_sym (OrderFacts.order_perm _))).
      apply filter_In. split; [exact Hr|]. now apply String.eqb_eq.
Qed.

(** X2.  [getTasksByPriority] returns the rows of [getAllTasks] for the
    same user that have the priority, in the order [getAllTasks] gives
    them: the rows of the table with that owner and that priority, and no
    other. *)
Theorem priority_listing_filters_user_listing (p u : string) (t : Table)
    (s : option string) (j : list Event) :
  exists l all,
    returned (getTasksByPriority host p u (ready t s j)) = Some l
    /\ returned (getAllTasks host u (ready t s j)) = Some all
    /\ l = filter (fun r => String.eqb (priority r) p) all
    /\ (forall r,
           In r l <-> In r (rows t) /\ priority r = p /\ user_id r = u).
Proof.
  eexists _, _. split; [reflexivity|]. split; [reflexivity|].
  unfold Sql.select_by_priority, Sql.select_by_user. split.
  - rewrite ListingFacts.filter_both. apply ListingFacts.filter_order.
  - intros r. rewrite ListingFacts.filter_both, ListingFacts.filter_order.
    rewrite !filter_In, String.eqb_eq. split.
    + intros [Hr Hs]. apply (Permutation_in _ (OrderFacts.order_perm _)) in Hr.
      apply filter_In in Hr as [Hr Hu]. apply String.eqb_eq in Hu. tauto.
    + intros (Hr & Hs & Hu). split; [|exact Hs].
      apply (Permutation_in _ (Permutation_sym (OrderFacts.order_perm _))).
      apply filter_In. split; [exact Hr|]. now apply String.eqb_eq.
Qed.

(** X3.  After a [createTask] on a table with room for a row the listing
    of the owner is the listing of before with the new task added, and the
    listing of every other user is what it was. *)
Theorem create_shows_in_owner_listing (ti de : string) (pr : option string)
    (us now u : string) (t : Table) (s : option string) (j : list Event) :
  has_room t = true ->
  exists task w1 old new,
    createTask host ti de pr us now (ready t s j) = Ok (Some task) w1
    /\ returned (getAllTasks host us (ready t s j)) = Some old
    /\ returned (getAllTasks host us w1) = Some new
    /\ Permutation new (task :: old)
    /\ (u <> us ->
        returned (getAllTasks host u w1)
        = returned (getAllTasks host u (ready t s j))).
Proof.
  intros Hroom.
  destruct (@createTask_room host ti de pr us now t s j Hroom)
    as (i & _ & _ & E).
  cbv zeta in E. eexists _, _, _, _. split; [exact E|].
  split; [reflexivity|].
  rewrite !getAllTasks_ready. cbn [returned].
  split; [reflexivity|]. unfold Sql.select_by_user. cbn [rows].
  rewrite !filter_app. cbn [filter user_id]. split.
  - rewrite String.eqb_refl, OrderFacts.order_perm.
    rewrite (OrderFacts.order_perm (filter _ (rows t))).
    symmetry. apply Permutation_cons_append.
  - intros Hu. apply String.eqb_neq in Hu. rewrite String.eqb_sym in Hu.
    rewrite Hu, app_nil_r. reflexivity.
Qed.

(** X4.  After [deleteTask] every listing is the listing of before without
    the rows of the deleted id, the other rows in their order. *)
Theorem delete_drops_from_listing (i : Z) (u : string) (t : Table)
    (s : option string) (j : list Event) :
  exists w1 old,
    deleteTask host i (ready t s j) = Ok true w1
    /\ returned (getAllTasks host u (ready t s j)) = Some old
    /\ returned (getAllTasks host u w1)
       = Some (filter (fun r => negb (Sql.has_id i r)) old).
Proof.
  eexists _, _. rewrite deleteTask_ready. split; [reflexivity|].
  split; [reflexivity|]. rewrite getAllTasks_ready. cbn [returned]. f_equal.
  unfold Sql.select_by_user, Sql.delete. cbn [rows].
  rewrite ListingFacts.filter_swap. apply ListingFacts.filter_order.
Qed.

End ListingContract.

(** ** Identity of rows *)

Module IdentityFacts.

Import Sql.

Lemma update_seq (host : Host) (t t' : Table) (u : list (string * string))
    (now : string) (i : Z) :
  update host t u now i = inr t' -> seq t' = seq t.
Proof.
  unfold update. destruct (resolve_all host u); [discriminate|].
  destruct (find (has_id i) (rows t)) as [r|].
  2:{ intros H. now injection H as <-. }
  destruct (assign_all host r _) as [r'|]; [|discriminate].
  destruct (id r' =? id r).
  - intros H. now injection H as <-.
  - destruct (existsb _ _); [discriminate|]. intros H. now injection H as <-.
Qed.

Lemma ascending_unique (l : list Task) (r : Task) :
  ascending l = true -> In r l -> filter (has_id (id r)) l = [r].
Proof.
  induction l as [|x l IH]; intros Hasc Hin; [contradiction|].
  destruct (OrderFacts.ascending_cons _ _ Hasc) as [Hx Hl].
  rewrite Forall_forall in Hx. simpl. destruct Hin as [->|Hin].
  - unfold has_id at 1. rewrite Z.eqb_refl. f_equal.
    apply SqlFacts.filter_none. intros y Hy. unfold has_id.
    apply Z.eqb_neq. specialize (Hx y Hy). lia.
  - assert (E : has_id (id r) x = false).
    { unfold has_id. apply Z.eqb_neq. specialize (Hx r Hin). lia. }
    rewrite E. now apply IH.
Qed.

Lemma ascending_NoDup (l : list Task) :
  ascending l = true -> NoDup (map id l).
Proof.
  induction l as [|x l IH]; intros Hasc; [constructor|].
  destruct (OrderFacts.ascending_cons _ _ Hasc) as [Hx Hl].
  rewrite Forall_forall in Hx. simpl. constructor; [|now apply IH].
  intros Hin. apply in_map_iff in Hin as (y & Hy & Hin).
  specialize (Hx y Hin). lia.
Qed.

Lemma select_deleted (t : Table) (i : Z) : select_by_id (delete t i) i = [].
Proof.
  unfold select_by_id, delete. cbn [rows]. apply SqlFacts.filter_none.
  intros x Hx. apply filter_In in Hx as [_ Hx]. now apply negb_true_iff.
Qed.

Lemma select_other_deleted (t : Table) (i k : Z) :
  k <> i -> select_by_id (delete t i) k = select_by_id t k.
Proof.
  intros Hk. unfold select_by_id, delete. cbn [rows].
  rewrite <- ListingFacts.filter_both. apply filter_ext. intros x.
  unfold has_id. destruct (id x =? k) eqn:E; [|reflexivity].
  apply Z.eqb_eq in E. simpl. apply negb_true_iff, Z.eqb_neq. lia.
Qed.

End IdentityFacts.

Section Identity.

Variable host : Host.

(** Calls never lower the counter of the table. *)
Lemma mutate_keeps_counter (m : Mutation) (t : Table) (s : option string)
    (j : list Event) :
  exists t' s' j',
    mutate host m (ready t s j) = ready t' s' j' /\ seq t <= seq t'.
Proof.
  destruct m as [ti de pr us now|i u now|i]; unfold mutate.
  - rewrite createTask_ready.
    destruct (Sql.insert t ti de _ us now) as [e|[t' k]] eqn:E;
      eexists _, _, _; (split; [reflexivity|]); [lia|].
    apply SqlFacts.insert_inv in E as [Hn ->]. cbn [seq].
    pose proof (@SqlFacts.next_rowid_above_seq t k Hn). lia.
  - destruct u as [|[f v] rest].
    + rewrite updateTask_ready_empty, getTaskById_ready.
      eexists _, _, _. split; [reflexivity|lia].
    + rewrite updateTask_ready.
      destruct (Sql.update host t ((f, v) :: rest) now i) as [e|t'] eqn:E;
        eexists _, _, _; (split; [reflexivity|]); [lia|].
      rewrite (IdentityFacts.update_seq _ _ _ _ _ E). lia.
  - rewrite deleteTask_ready. eexists _, _, _. split; [reflexivity|].
    cbn [Sql.delete seq]. lia.
Qed.

Lemma mutations_keep_counter (l : list Mutation) (t : Table)
    (s : option string) (j : list Event) :
  exists t' s' j',
    mutations host l (ready t s j) = ready t' s' j' /\ seq t <= seq t'.
Proof.
  revert t s j. induction l as [|m l IH]; intros t s j.
  - eexists _, _, _. split; [reflexivity|lia].
  - cbn [mutations fold_left].
    destruct (mutate_keeps_counter m t s j) as (t1 & s1 & j1 & -> & H1).
    destruct (IH t1 s1 j1) as (t2 & s2 & j2 & E & H2).
    eexists _, _, _. split; [exact E|lia].
Qed.

(** X5.  When the table has room for a row at each of two [createTask]
    calls, the task the later call returns has an id above the id of the
    task the earlier call returned, whatever calls were made in between. *)
Theorem created_ids_increase (ti de : string) (pr : option string)
    (us now ti' de' : string) (pr' : option string) (us' now' : string)
    (l : list Mutation) (t t2 : Table) (s : option string)
    (j : list Event) :
  has_room t = true ->
  table_of (mutations host l
              (world_of (createTask host ti de pr us now (ready t s j))))
  = Some t2 ->
  has_room t2 = true ->
  exists a w1 b w2,
    createTask host ti de pr us now (ready t s j) = Ok (Some a) w1
    /\ createTask host ti' de' pr' us' now' (mutations host l w1)
       = Ok (Some b) w2
    /\ id a < id b.
Proof.
  intros Hroom Ht2 Hroom2.
  destruct (@createTask_room host ti de pr us now t s j Hroom)
    as (i & Hn & _ & E).
  cbv zeta in E. rewrite E in Ht2. cbn [world_of] in Ht2.
  match type of Ht2 with
  | table_of (mutations host l (ready ?t1 ?s1 ?j1)) = _ =>
      destruct (mutations_keep_counter l t1 s1 j1)
        as (t2' & s2 & j2 & E2 & Hseq)
  end.
  rewrite E2 in Ht2. cbn in Ht2. injection Ht2 as ->.
  destruct (@createTask_room host ti' de' pr' us' now' t2 s2 j2 Hroom2)
    as (i2 & Hn2 & _ & E').
  cbv zeta in E'. eexists _, _, _, _. split; [exact E|].
  rewrite E2. split; [exact E'|]. cbn [id seq] in *.
  pose proof (@SqlFacts.next_rowid_above_seq t2 i2 Hn2). lia.
Qed.

(** X6.  In a store that began empty no two rows have the same id,
    whatever calls were made. *)
Theorem ids_unique_after_mutations (l : list Mutation) (s : option string)
    (j : list Event) :
  exists t,
    table_of (mutations host l (ready empty_table s j)) = Some t
    /\ NoDup (map id (rows t)).
Proof.
  destruct (@mutations_keep_rowid_order host l empty_table s j eq_refl)
    as (t & s' & j' & -> & H).
  exists t. split; [reflexivity|]. now apply IdentityFacts.ascending_NoDup.
Qed.

(** X7.  In a store that began empty [getTaskById] returns a row exactly
    when the table has a row of that id, and then returns that row. *)
Theorem getById_finds_the_row (l : list Mutation) (i : Z) (r : Task)
    (s : option string) (j : list Event) :
  let w := mutations host l (ready empty_table s j) in
  returned (getTaskById host i w) = Some (Some r)
  <-> exists t, table_of w = Some t /\ In r (rows t) /\ id r = i.
Proof.
  intros w. subst w.
  destruct (@mutations_keep_rowid_order host l empty_table s j eq_refl)
    as (t & s' & j' & -> & H).
  rewrite getTaskById_ready. cbn [returned table_of db ready]. split.
  - intros E. injection E as E. exists t. split; [reflexivity|].
    unfold Sql.select_by_id in E.
    destruct (filter (Sql.has_id i) (rows t)) as [|x rest] eqn:F;
      [discriminate|].
    injection E as ->.
    assert (Hin : In r (filter (Sql.has_id i) (rows t)))
      by (rewrite F; now left).
    apply filter_In in Hin as [Hin Hid]. split; [exact Hin|].
    now apply Z.eqb_eq in Hid.
  - intros (t' & E & Hin & <-). injection E as <-.
    unfold Sql.select_by_id.
    now rewrite (IdentityFacts.ascending_unique _ _ H Hin).
Qed.

(** X8.  After [deleteTask] a read of the deleted id finds nothing, and a
    read of any other id returns what it returned before. *)
Theorem delete_then_getById (i k : Z) (t : Table) (s : option string)
    (j : list Event) :
  exists w1,
    deleteTask host i (ready t s j) = Ok true w1
    /\ returned (getTaskById host i w1) = Some None
    /\ (k <> i ->
        returned (getTaskById host k w1)
        = returned (getTaskById host k (ready t s j))).
Proof.
  eexists. rewrite deleteTask_ready. split; [reflexivity|].
  rewrite !getTaskById_ready. cbn [returned].
  rewrite IdentityFacts.select_deleted. split; [reflexivity|].
  intros Hk. now rewrite IdentityFacts.select_other_deleted.
Qed.

End Identity.

(** ** What an update applies *)

Module WriteFacts.

Import Sql.

Lemma distinct_NoDup (l : list string) : distinct l = true -> NoDup l.
Proof.
  induction l as [|x l IH]; intros H; [constructor|].
  simpl in H. apply andb_prop in H as [Hx Hl].
  constructor; [|now apply IH]. intros Hin.
  apply negb_true_iff in Hx.
  assert (existsb (String.eqb x) l = true); [|congruence].
  apply existsb_exists. exists x. split; [exact Hin|apply String.eqb_refl].
Qed.

Lemma replace_row_in (i : Z) (r' : Task) (l : list Task) (y : Task) :
  In y (replace_row i r' l) -> y = r' \/ In y l.
Proof.
  induction l as [|x l IH]; [contradiction|]. simpl.
  destruct (has_id i x).
  - intros [<-|H]; [now left|right; now right].
  - intros [<-|H]; [right; now left|].
    destruct (IH H) as [->|Hy]; [now left|right; now right].
Qed.

Section Assignments.

Variable host : Host.

(** A name of the four settable columns is a column of the schema. *)
Lemma settable_resolves (f : string) :
  settable_name f = true ->
  exists c, In c settable /\ f = column_name c /\ resolve host f = Some c.
Proof.
  unfold settable_name, settable. cbn [existsb].
  rewrite !orb_true_iff, !String.eqb_eq.
  intros [H|[H|[H|[H|H]]]]; try discriminate; subst f;
    eexists; (split; [|split; reflexivity]); cbn; tauto.
Qed.

(** What the preparation makes of an object that names settable columns. *)
Lemma resolve_all_settable (u : list (string * string)) :
  forallb (fun kv => settable_name (fst kv)) u = true ->
  exists sets,
    resolve_all host u = inr sets
    /\ map (fun cv => (column_name (fst cv), snd cv)) sets = u
    /\ Forall (fun cv => In (fst cv) settable) sets.
Proof.
  induction u as [|[f v] u IH]; intros H.
  - exists []. repeat split; constructor.
  - cbn [forallb fst] in H. apply andb_prop in H as [Hf Hu].
    destruct (@settable_resolves f Hf) as (c & Hc & -> & Hr).
    destruct (IH Hu) as (sets & E & Hn & Hall).
    exists ((c, v) :: sets). cbn [resolve_all]. rewrite Hr, E.
    repeat split; cbn; try congruence. now constructor.
Qed.

Lemma column_name_inj (c c' : Column) :
  column_name c = column_name c' -> c = c'.
Proof. destruct c, c'; intros H; try reflexivity; discriminate H. Qed.

Lemma settable_text (c : Column) :
  In c settable -> c <> c_id /\ c <> c_updated_at /\ c <> c_user_id
                   /\ c <> c_created_at.
Proof.
  cbn. intros [<-|[<-|[<-|[<-|[]]]]]; repeat split; discriminate.
Qed.

Lemma assign_same (r : Task) (c : Column) (v : string) :
  c <> c_id ->
  exists r', assign host r c v = Some r'
             /\ id r' = id r /\ column_text c r' = Some v.
Proof.
  destruct c; intros H; try contradiction; eexists; repeat split.
Qed.

Lemma assign_other (r r' : Task) (c c' : Column) (v : string) :
  c <> c_id -> c' <> c ->
  assign host r c v = Some r' -> column_text c' r' = column_text c' r.
Proof.
  destruct c; intros H H' E; try contradiction; injection E as <-;
    destruct c'; try reflexivity; contradiction.
Qed.

(** The SET list on one row, when it does not touch the key. *)
Lemma assign_all_text (l : list (Column * string)) (r : Task) :
  Forall (fun cv => fst cv <> c_id) l ->
  exists r',
    assign_all host r l = Some r'
    /\ id r' = id r
    /\ (forall c, ~ In c (map fst l) -> column_text c r' = column_text c r)
    /\ (NoDup (map fst l) ->
        forall c x, In (c, x) l -> column_text c r' = Some x).
Proof.
  revert r. induction l as [|[c0 v0] l IH]; intros r Hall.
  - exists r. repeat split. intros _ c x [].
  - inversion Hall as [|? ? Hc0 Hl]; subst. cbn [fst] in Hc0.
    destruct (@assign_same r c0 v0 Hc0) as (r0 & E0 & Hid0 & Hget0).
    destruct (IH r0 Hl) as (r' & E & Hid & Hkeep & Hset).
    exists r'. cbn [assign_all]. rewrite E0. split; [exact E|].
    split; [congruence|]. split.
    + intros c Hc. cbn [map fst In] in Hc. rewrite Hkeep by tauto.
      apply (@assign_other r r0 c0 c v0 Hc0); [|exact E0]. intros ->. tauto.
    + intros Hnd c x Hin. cbn [map fst] in Hnd.
      inversion Hnd as [|? ? Hnotin Hnd']; subst.
      destruct Hin as [Hin|Hin].
      * injection Hin as <- <-. now rewrite Hkeep.
      * now apply Hset.
Qed.


Lemma resolve_all_known (u : list (string * string)) :
  forallb (fun kv => resolves host (fst kv)) u = true ->
  exists sets, resolve_all host u = inr sets.
Proof.
  induction u as [|[f v] u IH]; intros H; [now exists []|].
  cbn [forallb fst] in H. apply andb_prop in H as [Hf Hu].
  unfold resolves in Hf. cbn [resolve_all].
  destruct (resolve host f) as [c|]; [|discriminate].
  destruct (IH Hu) as (sets & ->). now eexists.
Qed.

End Assignments.

End WriteFacts.

Section Writes.

Variable host : Host.

(** X9.  [updateTask] on an id that no row has, with fields the engine
    knows, is no error: it returns nothing, leaves the table as it was,
    and still runs the UPDATE and writes the snapshot. *)
Theorem update_of_missing_row (i : Z) (f v : string)
    (rest : list (string * string)) (now : string) (t : Table)
    (s : option string) (j : list Event) :
  forallb (fun kv => resolves host (fst kv)) ((f, v) :: rest) = true ->
  forallb (fun r => negb (Sql.has_id i r)) (rows t) = true ->
  updateTask host i ((f, v) :: rest) now (ready t s j)
  = Ok None
       (ready t (Some (snapshot host (Some t)))
          (j ++ [Executed (Update (f :: map fst rest));
                 SetItem (snapshot host (Some t));
                 Executed SelectById])).
Proof.
  intros Hres Hno. rewrite updateTask_ready. unfold Sql.update.
  destruct (WriteFacts.resolve_all_known host _ Hres) as (sets & ->).
  assert (Hfind : find (Sql.has_id i) (rows t) = None).
  { destruct (find (Sql.has_id i) (rows t)) as [r|] eqn:E; [|reflexivity].
    apply find_some in E as [Hin Hid]. rewrite forallb_forall in Hno.
    specialize (Hno r Hin). rewrite Hid in Hno. discriminate. }
  rewrite Hfind. unfold Sql.select_by_id. rewrite SqlFacts.filter_none.
  - reflexivity.
  - intros x Hx. rewrite forallb_forall in Hno.
    now apply negb_true_iff, Hno.
Qed.

(** X10.  [updateTask] with an object whose names are among [title],
    [description], [status], [priority], on the id of a row: the row it
    returns has every named field at the value given and every other of
    these fields as before, the id, the owner and [created_at] as before,
    and [updated_at] at the clock value of the update. *)
Theorem update_applies_named_fields (i : Z) (f v : string)
    (rest : list (string * string)) (now : string) (t : Table) (r : Task)
    (s : option string) (j : list Event) :
  find (Sql.has_id i) (rows t) = Some r ->
  distinct (f :: map fst rest) = true ->
  forallb (fun kv => settable_name (fst kv)) ((f, v) :: rest) = true ->
  exists r',
    returned (updateTask host i ((f, v) :: rest) now (ready t s j))
    = Some (Some r')
    /\ id r' = id r
    /\ user_id r' = user_id r
    /\ created_at r' = created_at r
    /\ updated_at r' = now
    /\ (forall c x, In (column_name c, x) ((f, v) :: rest) ->
                    column_text c r' = Some x)
    /\ (forall c, In c settable ->
                  ~ In (column_name c) (f :: map fst rest) ->
                  column_text c r' = column_text c r).
Proof.
  intros Hfind Hdis Hset.
  destruct (WriteFacts.resolve_all_settable host _ Hset)
    as (sets & Eres & Hu & Hall).
  assert (Hnames : map column_name (map fst sets) = f :: map fst rest).
  { change (f :: map fst rest) with (map fst ((f, v) :: rest)).
    rewrite <- Hu, !map_map. reflexivity. }
  assert (Hnd : NoDup (map fst (sets ++ [(c_updated_at, now)]))).
  { rewrite map_app. cbn [map fst].
    apply (Permutation_NoDup (Permutation_cons_append _ _)).
    constructor.
    - intros Hin. apply in_map_iff in Hin as ([c x] & Hc & Hin).
      cbn [fst] in Hc. subst c. rewrite Forall_forall in Hall.
      apply Hall in Hin. cbn [fst] in Hin.
      now destruct (WriteFacts.settable_text Hin) as (_ & H & _).
    - apply (NoDup_map_inv column_name). rewrite Hnames.
      now apply WriteFacts.distinct_NoDup. }
  assert (Hnoid : Forall (fun cv => fst cv <> c_id)
                         (sets ++ [(c_updated_at, now)])).
  { apply Forall_app. split.
    - eapply Forall_impl; [|exact Hall]. intros cv H.
      now destruct (WriteFacts.settable_text H).
    - constructor; [discriminate|constructor]. }
  destruct (WriteFacts.assign_all_text host r Hnoid)
    as (r' & Eas & Hid & Hkeep & Hput).
  specialize (Hput Hnd).
  assert (Hother : forall c, ~ In c settable -> c <> c_updated_at ->
                             column_text c r' = column_text c r).
  { intros c Hc Hc'. apply Hkeep. rewrite map_app, in_app_iff.
    intros [Hin|[Hin|[]]]; [|now apply Hc'].
    apply in_map_iff in Hin as ([c0 x] & E & Hin). cbn [fst] in E. subst c0.
    rewrite Forall_forall in Hall. apply Hc. exact (Hall _ Hin). }
  exists r'. split.
  - rewrite updateTask_ready. unfold Sql.update.
    rewrite Eres, Hfind, Eas, Hid, Z.eqb_refl. cbn [returned]. f_equal.
    unfold Sql.select_by_id. cbn [rows].
    apply UpdateFacts.select_replaced with (r := r); [exact Hfind|].
    rewrite Hid. now apply UpdateFacts.find_has_id in Hfind.
  - split; [exact Hid|].
    assert (Hus := Hother c_user_id). assert (Hcr := Hother c_created_at).
    cbn [column_text settable In] in Hus, Hcr.
    split; [|split; [|split; [|split]]].
    + assert (E : Some (user_id r') = Some (user_id r)).
      { apply Hus; [intuition discriminate|discriminate]. }
      now injection E.
    + assert (E : Some (created_at r') = Some (created_at r)).
      { apply Hcr; [intuition discriminate|discriminate]. }
      now injection E.
    + assert (E : column_text c_updated_at r' = Some now).
      { apply Hput. apply in_or_app. right. now left. }
      cbn in E. now injection E.
    + intros c x Hin. apply Hput. apply in_or_app. left.
      rewrite <- Hu in Hin. apply in_map_iff in Hin as ([c0 x0] & E & Hin).
      cbn [fst snd] in E. injection E as En <-.
      apply WriteFacts.column_name_inj in En. now subst c0.
    + intros c Hc Hnot. apply Hkeep. rewrite map_app, in_app_iff.
      intros [Hin|[Hin|[]]].
      * apply Hnot. rewrite <- Hnames. now apply in_map.
      * subst c. now destruct (WriteFacts.settable_text Hc) as (_ & H & _).
Qed.

(** X11.  [updateTask] with an object whose names are among [title],
    [description], [status], [priority] adds no row and removes none, keeps
    every id and the counter of the table, and leaves every row of another
    id as it was. *)
Theorem update_leaves_other_rows (i : Z) (f v : string)
    (rest : list (string * string)) (now : string) (t : Table)
    (s : option string) (j : list Event) :
  forallb (fun kv => settable_name (fst kv)) ((f, v) :: rest) = true ->
  exists t',
    table_of (world_of (updateTask host i ((f, v) :: rest) now (ready t s j)))
    = Some t'
    /\ map id (rows t') = map id (rows t)
    /\ seq t' = seq t
    /\ (forall y, id y <> i -> (In y (rows t') <-> In y (rows t))).
Proof.
  intros Hset.
  destruct (WriteFacts.resolve_all_settable host _ Hset)
    as (sets & Eres & Hu & Hall).
  rewrite updateTask_ready. unfold Sql.update. rewrite Eres.
  destruct (find (Sql.has_id i) (rows t)) as [r|] eqn:Hfind.
  2:{ exists t. repeat split; trivial. }
  assert (Hnoid : Forall (fun cv => fst cv <> c_id)
                         (sets ++ [(c_updated_at, now)])).
  { apply Forall_app. split.
    - eapply Forall_impl; [|exact Hall]. intros cv H.
      now destruct (WriteFacts.settable_text H).
    - constructor; [discriminate|constructor]. }
  destruct (WriteFacts.assign_all_text host r Hnoid)
    as (r' & Eas & Hid & _).
  rewrite Eas, Hid, Z.eqb_refl. eexists. split; [reflexivity|].
  cbn [rows seq]. split; [now apply RowidFacts.replace_row_ids with (r := r)|].
  split; [reflexivity|]. intros y Hy. split.
  - intros Hin. apply WriteFacts.replace_row_in in Hin as [->|Hin]; trivial.
    apply UpdateFacts.find_has_id in Hfind as [_ Hfind]. congruence.
  - intros Hin. now apply UpdateFacts.replace_row_others.
Qed.


End Writes.

(** ** The first call on an instance *)

Section FirstCall.

Variable host : Host.

Lemma initialize_done (w : World) :
  initialized w = true -> initialize host w = Ok tt w.
Proof. intros H. unfold initialize. now rewrite H. Qed.

(** A method on an instance is the method on the instance its
    initialization leaves. *)
Lemma entered_once {A} (body : M A) (w w1 : World) :
  initialize host w = Ok tt w1 ->
  (initialize host ;; body) w = (initialize host ;; body) w1.
Proof.
  intros H. destruct (@initialize_ok host w w1 H) as [Hi _].
  unfold bind. now rewrite H, (@initialize_done w1 Hi).
Qed.

(** A method on an instance whose initialization throws throws the same. *)
Lemma thrown_first {A} (body : M A) (w w' : World) (e : Exception) :
  initialize host w = Throw e w' ->
  (initialize host ;; body) w = Throw e w'.
Proof. intros H. unfold bind. now rewrite H. Qed.

(** X13.  Once [initialize] has returned, calling it again does nothing:
    it returns at once and leaves the instance, the durable key and the
    journal as they are. *)
Theorem initialize_again_does_nothing (w w1 : World) :
  initialize host w = Ok tt w1 ->
  initialize host w1 = Ok tt w1.
Proof.
  intros H. destruct (@initialize_ok host w w1 H) as [Hi _].
  now apply initialize_done.
Qed.

(** X14.  On a new instance that finds no value under the durable key, or
    the empty text, the first listing is empty for every user, the key
    then holds the snapshot of the empty table, and the first task created
    gets the id 1. *)
Theorem first_call_on_new_store (slot : option string) (u : string)
    (ti de : string) (pr : option string) (us now : string)
    (j : list Event) :
  truthy slot = false ->
  getAllTasks host u (fresh slot j)
  = Ok [] (ready empty_table (Some (snapshot host (Some empty_table)))
             (j ++ [Executed CreateTable;
                    SetItem (snapshot host (Some empty_table));
                    Executed SelectByUser]))
  /\ exists task,
       returned (createTask host ti de pr us now (fresh slot j))
       = Some (Some task)
       /\ id task = 1.
Proof.
  intros H. pose proof (initialize_fresh_empty host slot j H) as E. split.
  - unfold getAllTasks. rewrite (@entered_once _ _ _ _ E).
    change (getAllTasks host u
              (ready empty_table (Some (snapshot host (Some empty_table)))
                 (j ++ [Executed CreateTable;
                        SetItem (snapshot host (Some empty_table))]))
            = Ok [] (ready empty_table
                       (Some (snapshot host (Some empty_table)))
                       (j ++ [Executed CreateTable;
                              SetItem (snapshot host (Some empty_table));
                              Executed SelectByUser]))).
    rewrite getAllTasks_ready, <- app_assoc. reflexivity.
  - unfold createTask. cbv zeta. rewrite (@entered_once _ _ _ _ E).
    change (exists task,
      returned (createTask host ti de pr us now
                  (ready empty_table
                     (Some (snapshot host (Some empty_table)))
                     (j ++ [Executed CreateTable;
                            SetItem (snapshot host (Some empty_table))])))
      = Some (Some task) /\ id task = 1).
    rewrite createTask_ready. eexists. split; reflexivity.
Qed.

(** X15.  A new instance that finds under the durable key the snapshot of
    a table the engine reads back answers its first call as the instance
    that held the table would: the same listings, the same row by id, and
    for a create the same new task, id included. *)
Theorem restart_is_invisible (t : Table) (s : option string)
    (j j0 : list Event) :
  sqlite_open host (sqlite_export host (Some t)) = Some (Some t) ->
  let w0 := fresh (Some (snapshot host (Some t))) j0 in
  (forall u, returned (getAllTasks host u w0)
             = returned (getAllTasks host u (ready t s j)))
  /\ (forall i, returned (getTaskById host i w0)
                = returned (getTaskById host i (ready t s j)))
  /\ (forall ti de pr us now,
         returned (createTask host ti de pr us now w0)
         = returned (createTask host ti de pr us now (ready t s j))).
Proof.
  intros Hrt w0. pose proof (@load_saved host t j0 Hrt) as E. fold w0 in E.
  split; [|split].
  - intros u. unfold getAllTasks at 1. rewrite (@entered_once _ _ _ _ E).
    reflexivity.
  - intros i. unfold getTaskById at 1. rewrite (@entered_once _ _ _ _ E).
    reflexivity.
  - intros ti de pr us now. unfold createTask at 1. cbv zeta.
    rewrite (@entered_once _ _ _ _ E).
    change (returned (createTask host ti de pr us now
                        (ready t (Some (snapshot host (Some t)))
                           (j0 ++ [Executed CreateTable;
                                   SetItem (snapshot host (Some t))])))
            = returned (createTask host ti de pr us now (ready t s j))).
    rewrite !createTask_ready.
    destruct (Sql.insert t ti de _ us now) as [e|[t' k]]; reflexivity.
Qed.

(** X16.  What [saveToLocalStorage] writes, [initialize] reads back: for
    every array of bytes the text of [JSON.stringify(Array.from(bytes))] is
    not the empty text, so it passes the test of [initialize], and
    [new Uint8Array(JSON.parse(text))] is the array again. *)
Theorem snapshot_text_round_trip (l : list byte) :
  truthy (Some (Json.stringify l)) = true
  /\ snapshot_bytes host (Json.stringify l) = Some l.
Proof.
  split; [reflexivity|].
  unfold snapshot_bytes. now rewrite JsonFacts.parse_stringify.
Qed.

(** X17.  On a new instance whose durable key holds a text that is not
    empty and cannot be loaded, every method throws what [initialize]
    throws; none runs a statement and none writes to the key. *)
Theorem corrupt_snapshot_stops_every_method (sn : string) (j : list Event) :
  String.eqb sn "" = false ->
  unloadable host sn ->
  exists e w',
    initialized w' = false
    /\ localStorage w' = Some sn
    /\ journal w' = j
    /\ (forall ti de pr us now,
           createTask host ti de pr us now (fresh (Some sn) j) = Throw e w')
    /\ (forall u, getAllTasks host u (fresh (Some sn) j) = Throw e w')
    /\ (forall i, getTaskById host i (fresh (Some sn) j) = Throw e w')
    /\ (forall i u now, updateTask host i u now (fresh (Some sn) j)
                        = Throw e w')
    /\ (forall i, deleteTask host i (fresh (Some sn) j) = Throw e w')
    /\ (forall st u, getTasksByStatus host st u (fresh (Some sn) j)
                     = Throw e w')
    /\ (forall p u, getTasksByPriority host p u (fresh (Some sn) j)
                    = Throw e w').
Proof.
  intros Hs Hun.
  assert (E : exists e w', initialize host (fresh (Some sn) j) = Throw e w'
                           /\ initialized w' = false
                           /\ localStorage w' = Some sn /\ journal w' = j).
  { destruct Hun as [Hp|(l & Hp & Ho)].
    - rewrite (@initialize_fresh_unparsed host sn j Hs Hp).
      eexists _, _. repeat split.
    - rewrite (@initialize_fresh_rejected host sn l j Hs Hp Ho).
      eexists _, _. repeat split. }
  destruct E as (e & w' & E & Hi & Hl & Hj). exists e, w'.
  repeat split; trivial; intros;
    [unfold createTask; cbv zeta|unfold getAllTasks|unfold getTaskById
    |unfold updateTask|unfold deleteTask|unfold getTasksByStatus
    |unfold getTasksByPriority];
    exact (@thrown_first _ _ _ _ _ E).
Qed.

End FirstCall.

(** ** Sample runs of the further properties *)

Lemma update_of_missing_row_witness :
  updateTask Demo.host 9 [("status", "completed")] "2024-05-01 12:00:00"
    (ready Demo.three_tasks None [])
  = Ok None
       (ready Demo.three_tasks
          (Some (snapshot Demo.host (Some Demo.three_tasks)))
          ([] ++ [Executed (Update ("status"
                                    :: map fst (@nil (string * string))));
                  SetItem (snapshot Demo.host (Some Demo.three_tasks));
                  Executed SelectById])).
Proof.
  apply (@update_of_missing_row Demo.host 9 "status" "completed" []
           "2024-05-01 12:00:00" Demo.three_tasks None []);
    reflexivity.
Defined.

Lemma update_applies_named_fields_witness :
  exists r',
    returned (updateTask Demo.host 2
                [("status", "completed"); ("title", "Buy rye bread")]
                "2024-05-01 12:00:00" (ready Demo.three_tasks None []))
    = Some (Some r')
    /\ id r' = id Demo.bread
    /\ user_id r' = user_id Demo.bread
    /\ created_at r' = created_at Demo.bread
    /\ updated_at r' = "2024-05-01 12:00:00"
    /\ (forall c x,
           In (column_name c, x)
              [("status", "completed"); ("title", "Buy rye bread")] ->
           column_text c r' = Some x)
    /\ (forall c, In c settable ->
                  ~ In (column_name c) ("status" :: map fst [("title", "Buy rye bread")]) ->
                  column_text c r' = column_text c Demo.bread).
Proof.
  apply (@update_applies_named_fields Demo.host 2 "status" "completed"
           [("title", "Buy rye bread")] "2024-05-01 12:00:00"
           Demo.three_tasks Demo.bread None []);
    reflexivity.
Defined.

Lemma update_leaves_other_rows_witness :
  exists t',
    table_of (world_of (updateTask Demo.host 2 [("priority", "high")]
                          "2024-05-01 12:00:00"
                          (ready Demo.three_tasks None [])))
    = Some t'
    /\ map id (rows t') = map id (rows Demo.three_tasks)
    /\ seq t' = seq Demo.three_tasks
    /\ (forall y, id y <> 2 ->
                  (In y (rows t') <-> In y (rows Demo.three_tasks))).
Proof.
  apply (@update_leaves_other_rows Demo.host 2 "priority" "high" []
           "2024-05-01 12:00:00" Demo.three_tasks None []).
  reflexivity.
Defined.


Lemma initialize_again_does_nothing_witness :
  let w1 := ready empty_table (Some (snapshot Demo.host (Some empty_table)))
              [Executed CreateTable;
               SetItem (snapshot Demo.host (Some empty_table))] in
  initialize Demo.host w1 = Ok tt w1.
Proof.
  apply (@initialize_again_does_nothing Demo.host (fresh None [])).
  reflexivity.
Defined.

Lemma first_call_on_new_store_witness :
  getAllTasks Demo.host "u1" (fresh (Some "") [])
  = Ok [] (ready empty_table (Some (snapshot Demo.host (Some empty_table)))
             ([] ++ [Executed CreateTable;
                     SetItem (snapshot Demo.host (Some empty_table));
                     Executed SelectByUser]))
  /\ exists task,
       returned (createTask Demo.host "Buy milk" "2% milk" None "u1"
                   "2024-05-01 10:00:00" (fresh (Some "") []))
       = Some (Some task)
       /\ id task = 1.
Proof.
  apply (@first_call_on_new_store Demo.host (Some "") "u1" "Buy milk"
           "2% milk" None "u1" "2024-05-01 10:00:00" []).
  reflexivity.
Defined.

Lemma restart_is_invisible_witness :
  let w0 := fresh (Some (snapshot Demo.host (Some Demo.three_tasks))) [] in
  (forall u, returned (getAllTasks Demo.host u w0)
             = returned (getAllTasks Demo.host u
                           (ready Demo.three_tasks None [])))
  /\ (forall i, returned (getTaskById Demo.host i w0)
                = returned (getTaskById Demo.host i
                              (ready Demo.three_tasks None [])))
  /\ (forall ti de pr us now,
         returned (createTask Demo.host ti de pr us now w0)
         = returned (createTask Demo.host ti de pr us now
                       (ready Demo.three_tasks None []))).
Proof.
  apply (@restart_is_invisible Demo.host Demo.three_tasks None [] []).
  vm_compute. reflexivity.
Defined.

Lemma corrupt_snapshot_stops_every_method_witness :
  exists e w',
    initialized w' = false
    /\ localStorage w' = Some "[7]"
    /\ journal w' = []
    /\ (forall ti de pr us now,
           createTask Demo.host ti de pr us now (fresh (Some "[7]") [])
           = Throw e w')
    /\ (forall u, getAllTasks Demo.host u (fresh (Some "[7]") [])
                  = Throw e w')
    /\ (forall i, getTaskById Demo.host i (fresh (Some "[7]") [])
                  = Throw e w')
    /\ (forall i u now, updateTask Demo.host i u now (fresh (Some "[7]") [])
                        = Throw e w')
    /\ (forall i, deleteTask Demo.host i (fresh (Some "[7]") []) = Throw e w')
    /\ (forall st u, getTasksByStatus Demo.host st u (fresh (Some "[7]") [])
                     = Throw e w')
    /\ (forall p u, getTasksByPriority Demo.host p u (fresh (Some "[7]") [])
                    = Throw e w').
Proof.
  apply (@corrupt_snapshot_stops_every_method Demo.host "[7]" []).
  - reflexivity.
  - right. exists [x07]. split; reflexivity.
Defined.

Lemma create_shows_in_owner_listing_witness :
  exists task w1 old new,
    createTask Demo.host "Call the bank" "about the card" None "u1"
      "2024-05-03 08:00:00" (ready Demo.three_tasks None [])
    = Ok (Some task) w1
    /\ returned (getAllTasks Demo.host "u1" (ready Demo.three_tasks None []))
       = Some old
    /\ returned (getAllTasks Demo.host "u1" w1) = Some new
    /\ Permutation new (task :: old)
    /\ ("u2" <> "u1" ->
        returned (getAllTasks Demo.host "u2" w1)
        = returned (getAllTasks Demo.host "u2"
                      (ready Demo.three_tasks None []))).
Proof.
  apply (@create_shows_in_owner_listing Demo.host "Call the bank"
           "about the card" None "u1" "2024-05-03 08:00:00" "u2"
           Demo.three_tasks None []).
  reflexivity.
Defined.

Lemma created_ids_increase_witness :
  exists a w1 b w2,
    createTask Demo.host "Buy milk" "2% milk" (Some "low") "u1"
      "2024-05-01 10:00:00" (ready empty_table None [])
    = Ok (Some a) w1
    /\ createTask Demo.host "Buy bread" "rye" None "u1"
         "2024-05-01 10:05:00" (mutations Demo.host [Remove 1] w1)
       = Ok (Some b) w2
    /\ id a < id b.
Proof.
  apply (@created_ids_increase Demo.host "Buy milk" "2% milk" (Some "low")
           "u1" "2024-05-01 10:00:00" "Buy bread" "rye" None "u1"
           "2024-05-01 10:05:00" [Remove 1] empty_table (mkTable [] 1)
           None []).
  - reflexivity.
  - vm_compute. reflexivity.
  - reflexivity.
Defined.
